(** * Election results dashboard: margin analysis and report composition

    A shallow embedding of the analytics of [app.py] and [v2app.py]:
    the party normalisation of [load_data], [natural_sort_key] and the
    [sorted] calls that use it, [get_margin_analysis] (app.py), the
    head(2)/cumcount/pivot margin table (v2app.py), [generate_pdf]
    (v2app.py) and the two export buttons of app.py.

    Data frames are lists of records, one record per row, in row order.
    The [Votes] column is a 64-bit integer column: sums and differences
    computed on it wrap around, which is written out with [wrap64].
    pandas and CPython library calls ([groupby(...).sum()], [sort_values],
    [head], [nth], [merge], [pivot], [isin], [unique], [sorted]) are
    modelled by the functions of the same name below, following their
    documented behaviour.

    Text is held as its UTF-8 bytes.  Two strings compare as their code
    points do, and [str.strip()] is written over the encodings of the
    white-space characters of Unicode.  The digits of [str.isdigit] are
    the ASCII ones; what depends on them is stated for ASCII ids. *)

From Stdlib Require Import ZArith List String Ascii Bool Lia.
From Stdlib Require Import Permutation Sorted OrdersEx RelationClasses DecimalString.
Import ListNotations.
Open Scope string_scope.
Open Scope Z_scope.

(* ------------------------------------------------------------------ *)
(** ** Exceptions *)

Inductive exn : Type :=
| TypeError      (* '<' not supported between instances of 'str' and 'int' *)
| ValueError     (* length mismatch on column assignment, NaN to integer *)
| OverflowError  (* Python int too large for a 64-bit column *)
| RenderError.   (* raised by the image rendering collaborator *)

Inductive result (A : Type) : Type :=
| Ok (a : A)
| Raise (e : exn).
Arguments Ok {A} a.
Arguments Raise {A} e.

Definition bind {A B : Type} (m : result A) (k : A -> result B) : result B :=
  match m with
  | Ok a => k a
  | Raise e => Raise e
  end.

Notation "x <- m ;; k" := (bind m (fun x => k))
  (at level 61, m at next level, right associativity).

Fixpoint mapM {A B : Type} (f : A -> result B) (l : list A) : result (list B) :=
  match l with
  | [] => Ok []
  | a :: t => b <- f a ;; bs <- mapM f t ;; Ok (b :: bs)
  end.

(* ------------------------------------------------------------------ *)
(** ** 64-bit integer columns *)

Definition int64_min : Z := - 2 ^ 63.
Definition int64_max : Z := 2 ^ 63 - 1.

Definition in_int64 (z : Z) : bool := (int64_min <=? z) && (z <=? int64_max).

(** Two's complement wrap-around of numpy's int64 arithmetic. *)
Definition wrap64 (z : Z) : Z := (z + 2 ^ 63) mod 2 ^ 64 - 2 ^ 63.

(** [.astype(int)] on an object column holding Python integers. *)
Definition astype_int (z : Z) : result Z :=
  if in_int64 z then Ok z else Raise OverflowError.

(* ------------------------------------------------------------------ *)
(** ** Ordered keys

    Group keys and sort keys are strings or tuples of strings; Python and
    pandas order strings by code point and tuples lexicographically. *)

Class KeyOrder (K : Type) : Type := { kcmp : K -> K -> comparison }.

(** What makes [kcmp] a strict total order. *)
Class KeyOrderLaws (K : Type) `{KeyOrder K} : Prop := {
  kcmp_eq : forall a b : K, kcmp a b = Eq <-> a = b;
  kcmp_antisym : forall a b : K, kcmp b a = CompOpp (kcmp a b);
  kcmp_trans : forall a b c : K, kcmp a b = Lt -> kcmp b c = Lt -> kcmp a c = Lt
}.

Definition keqb {K : Type} `{KeyOrder K} (a b : K) : bool :=
  match kcmp a b with Eq => true | _ => false end.

Definition lex (c1 c2 : comparison) : comparison :=
  match c1 with Eq => c2 | _ => c1 end.

#[export] Instance string_KeyOrder : KeyOrder string := { kcmp := String_as_OT.compare }.

#[export] Instance nat_KeyOrder : KeyOrder nat := { kcmp := Nat.compare }.

#[export] Instance Z_KeyOrder : KeyOrder Z := { kcmp := Z.compare }.

Definition pair_cmp {A B : Type} `{KeyOrder A} `{KeyOrder B} (x y : A * B) : comparison :=
  lex (kcmp (fst x) (fst y)) (kcmp (snd x) (snd y)).

#[export] Instance pair_KeyOrder {A B : Type} `{KeyOrder A} `{KeyOrder B}
  : KeyOrder (A * B) := { kcmp := pair_cmp }.

(* ------------------------------------------------------------------ *)
(** ** The loaded table

    One [Row] per line of election.csv after [load_data]: [Prabhag] is the
    unit id, [Election_type] the category.  Rows whose [Name] or
    [Election_type] is missing are dropped by every [groupby] below
    (dropna), so the table is taken with these columns present. *)

Record Row : Type := mkRow {
  Prabhag : string;
  Election_type : string;
  Name : string;
  Party : string;
  Votes : Z
}.

Definition DataFrame : Type := list Row.

Definition sum_votes (data : DataFrame) : Z := fold_right Z.add 0 (map Votes data).

(** The VoteRecord invariant (votes are not negative) on a table whose
    [Votes] column total is representable in the column type. *)
Definition votes_ok (data : DataFrame) : Prop :=
  Forall (fun r => 0 <= Votes r) data /\ sum_votes data <= int64_max.

(* ------------------------------------------------------------------ *)
(** ** pandas operations *)

Section GroupBySum.
Context {K : Type} `{KeyOrder K}.
Variable key : Row -> K.

(** One step of [groupby(key)['Votes'].sum()]: the groups are kept in
    ascending key order (sort=True) and the sum is an int64 sum. *)
Fixpoint add_votes (k : K) (v : Z) (agg : list (K * Z)) : list (K * Z) :=
  match agg with
  | [] => [(k, wrap64 v)]
  | (k', s) :: rest =>
      match kcmp k k' with
      | Lt => (k, wrap64 v) :: agg
      | Eq => (k', wrap64 (s + v)) :: rest
      | Gt => (k', s) :: add_votes k v rest
      end
  end.

Definition groupby_sum (data : DataFrame) : list (K * Z) :=
  fold_left (fun agg r => add_votes (key r) (Votes r) agg) data [].

(** Strictly ascending key order, and the total of the sums. *)
Definition keys_sorted (m : list (K * Z)) : Prop :=
  StronglySorted (fun a b => kcmp (fst a) (fst b) = Lt) m.

Definition vsum (m : list (K * Z)) : Z := fold_right Z.add 0 (map snd m).

(** The sum stored for a key, and the votes of the rows that have the key. *)
Fixpoint alookup (k : K) (m : list (K * Z)) : option Z :=
  match m with
  | [] => None
  | (k', s) :: rest => if keqb k k' then Some s else alookup k rest
  end.

Definition key_rows (k : K) (data : DataFrame) : DataFrame :=
  filter (fun r => keqb (key r) k) data.
End GroupBySum.

Section SortValues.
Context {A : Type}.
Variable cmp : A -> A -> comparison.

Fixpoint insert_sorted (x : A) (l : list A) : list A :=
  match l with
  | [] => [x]
  | y :: t =>
      match cmp x y with
      | Gt => y :: insert_sorted x t
      | _ => x :: l
      end
  end.

(** [sort_values] on several columns is a stable sort: rows that compare
    equal keep the order they had in the frame. *)
Definition sort_values (l : list A) : list A :=
  fold_right insert_sorted [] l.
End SortValues.

Section GroupOps.
Context {A G : Type} `{KeyOrder G}.
Variable gk : A -> G.

Definition same_group (a b : A) : bool := keqb (gk a) (gk b).

Definition in_group (g : G) (a : A) : bool := keqb (gk a) g.

(** [groupby(gk).cumcount()]: each row is numbered by the count of
    earlier rows of the frame that belong to its group. *)
Fixpoint cumcount_from (prev l : list A) : list (nat * A) :=
  match l with
  | [] => []
  | a :: t =>
      (List.length (filter (fun b => same_group b a) prev), a)
        :: cumcount_from (a :: prev) t
  end.

Definition cumcount (l : list A) : list (nat * A) := cumcount_from [] l.

(** [groupby(gk).head(n)]: the first [n] rows of each group, in frame order. *)
Definition head (n : nat) (l : list A) : list A :=
  map snd (filter (fun cr => Nat.ltb (fst cr) n) (cumcount l)).

(** [groupby(gk).nth(n)]: the row at position [n] of each group. *)
Definition nth_row (n : nat) (l : list A) : list A :=
  map snd (filter (fun cr => Nat.eqb (fst cr) n) (cumcount l)).
End GroupOps.

Section Unique.
Context {K : Type} `{KeyOrder K}.

Fixpoint set_insert (k : K) (s : list K) : list K :=
  match s with
  | [] => [k]
  | k' :: t =>
      match kcmp k k' with
      | Lt => k :: s
      | Eq => s
      | Gt => k' :: set_insert k t
      end
  end.

(** The distinct values of a column in ascending order (an index level). *)
Definition sorted_unique (l : list K) : list K :=
  fold_left (fun s k => set_insert k s) l [].

(** [Series.unique()]: distinct values in order of first appearance. *)
Fixpoint unique_from (seen l : list K) : list K :=
  match l with
  | [] => []
  | k :: t =>
      if existsb (keqb k) seen then unique_from seen t
      else k :: unique_from (k :: seen) t
  end.

Definition unique (l : list K) : list K := unique_from [] l.

(** [Series.isin(values)] *)
Definition isin (k : K) (values : list K) : bool := existsb (keqb k) values.
End Unique.

Definition grp (r : Row) : string * string := (Prabhag r, Election_type r).

Definition agg_key (r : Row) : string * string * string * string :=
  (Prabhag r, Election_type r, Name r, Party r).

(** [.reset_index()] after the four-column groupby. *)
Definition agg_row (e : (string * string * string * string) * Z) : Row :=
  let '((p, t, n, q), v) := e in mkRow p t n q v.

(** Row order of [sort_values(['Prabhag','Election_type','Votes'],
    ascending=[True,True,False])]. *)
Definition by_group_votes_desc (a b : Row) : comparison :=
  lex (kcmp (Prabhag a) (Prabhag b))
    (lex (kcmp (Election_type a) (Election_type b))
       (Z.compare (Votes b) (Votes a))).

(** Lines 71-72 of app.py, identical to lines 212-213 of v2app.py. *)
Definition agg (data : DataFrame) : DataFrame :=
  map agg_row (groupby_sum agg_key data).

Definition sorted_agg (data : DataFrame) : DataFrame :=
  sort_values by_group_votes_desc (agg data).

(** The rows of one (unit, category) group in ranking order. *)
Definition ranked_group (g : string * string) (data : DataFrame) : list Row :=
  filter (in_group grp g) (sorted_agg data).

(** The order in which [sorted_agg] lists the rows: unit, category, votes
    descending, then the order of the aggregated table. *)
Definition sort_key (r : Row) : string * (string * Z) :=
  (Prabhag r, (Election_type r, - Votes r)).

Definition rank_key (r : Row)
  : (string * (string * Z)) * (string * string * string * string) :=
  (sort_key r, agg_key r).

(* ------------------------------------------------------------------ *)
(** ** load_data: the Party column *)

(** Cell texts that [pd.read_csv] reads as NaN by default. *)
Definition na_values : list string :=
  [""; "#N/A"; "#N/A N/A"; "#NA"; "-1.#IND"; "-1.#QNAN"; "-NaN"; "-nan";
   "1.#IND"; "1.#QNAN"; "<NA>"; "N/A"; "NA"; "NULL"; "NaN"; "None"; "n/a";
   "nan"; "null"].

Definition read_csv_cell (raw : string) : option string :=
  if isin raw na_values then None else Some raw.

(** White space as [str.strip()] sees it.  A [string] holds the UTF-8
    text of the Python string, so a character is one to three bytes here.
    The characters that [str.strip()] removes are those of [str.isspace]:
    U+0009-000D, U+001C-0020, U+0085, U+00A0, U+1680, U+2000-200A, U+2028,
    U+2029, U+202F, U+205F and U+3000. *)
Definition space1 (c : ascii) : bool :=
  let n := nat_of_ascii c in
  ((9 <=? n) && (n <=? 13) || (28 <=? n) && (n <=? 32))%nat.

(** U+0085 is C2 85, U+00A0 is C2 A0. *)
Definition space2 (c1 c2 : ascii) : bool :=
  let a := nat_of_ascii c1 in
  let b := nat_of_ascii c2 in
  ((a =? 194) && ((b =? 133) || (b =? 160)))%nat.

(** U+1680 is E1 9A 80; U+2000-200A are E2 80 80 to E2 80 8A; U+2028,
    U+2029 and U+202F are E2 80 A8, E2 80 A9 and E2 80 AF; U+205F is
    E2 81 9F; U+3000 is E3 80 80. *)
Definition space3 (c1 c2 c3 : ascii) : bool :=
  let a := nat_of_ascii c1 in
  let b := nat_of_ascii c2 in
  let c := nat_of_ascii c3 in
  ((a =? 225) && (b =? 154) && (c =? 128)
   || (a =? 226) && (b =? 128)
      && ((128 <=? c) && (c <=? 138) || (c =? 168) || (c =? 169) || (c =? 175))
   || (a =? 226) && (b =? 129) && (c =? 159)
   || (a =? 227) && (b =? 128) && (c =? 128))%nat.

(** The text behind one leading white-space character, if there is one. *)
Definition space_prefix (s : string) : option string :=
  match s with
  | String c1 t1 =>
      if space1 c1 then Some t1
      else match t1 with
           | String c2 t2 =>
               if space2 c1 c2 then Some t2
               else match t2 with
                    | String c3 t3 => if space3 c1 c2 c3 then Some t3 else None
                    | EmptyString => None
                    end
           | EmptyString => None
           end
  | EmptyString => None
  end.

(** [s] is one white-space character. *)
Definition is_space (s : string) : bool :=
  match space_prefix s with
  | Some EmptyString => true
  | _ => false
  end.

Fixpoint lstrip (s : string) : string :=
  match s with
  | EmptyString => EmptyString
  | String c1 t1 =>
      if space1 c1 then lstrip t1
      else match t1 with
           | String c2 t2 =>
               if space2 c1 c2 then lstrip t2
               else match t2 with
                    | String c3 t3 => if space3 c1 c2 c3 then lstrip t3 else s
                    | EmptyString => s
                    end
           | EmptyString => s
           end
  end.

(** Scanning from the right end: what is left of the tail is kept unless
    it is, with the character in front of it, one white-space character. *)
Fixpoint rstrip (s : string) : string :=
  match s with
  | EmptyString => EmptyString
  | String c t =>
      let r := String c (rstrip t) in
      if is_space r then EmptyString else r
  end.

Definition strip (s : string) : string := rstrip (lstrip s).

(** A cell that holds nothing but white space ([str.isspace], or empty). *)
Fixpoint all_space (s : string) : bool :=
  match s with
  | EmptyString => true
  | String c1 t1 =>
      if space1 c1 then all_space t1
      else match t1 with
           | String c2 t2 =>
               if space2 c1 c2 then all_space t2
               else match t2 with
                    | String c3 t3 => space3 c1 c2 c3 && all_space t3
                    | EmptyString => false
                    end
           | EmptyString => false
           end
  end.

(** [df['Party'].fillna('Independent').str.strip()] on one cell. *)
Definition load_party (cell : option string) : string :=
  strip (match cell with
         | None => "Independent"
         | Some s => s
         end).

(* ------------------------------------------------------------------ *)
(** ** natural_sort_key and sorted *)

Inductive pykey : Type :=
| KInt (n : Z)
| KStr (s : string).

Definition is_ascii_digit (c : ascii) : bool :=
  let n := nat_of_ascii c in ((48 <=? n) && (n <=? 57))%nat.

Fixpoint all_digits (s : string) : bool :=
  match s with
  | EmptyString => true
  | String c t => is_ascii_digit c && all_digits t
  end.

(** [s.isdigit()] on ASCII text: not empty, and '0' to '9' only.  Python
    also counts the digits of other scripts and the superscript digits, on
    which [int(s)] converts or raises ValueError; ids with such characters
    are set apart by [plain_id] below. *)
Definition isdigit (s : string) : bool :=
  match s with
  | EmptyString => false
  | _ => all_digits s
  end.

Fixpoint int_of_digits (acc : Z) (s : string) : Z :=
  match s with
  | EmptyString => acc
  | String c t => int_of_digits (10 * acc + Z.of_nat (nat_of_ascii c - 48)) t
  end.

Definition natural_sort_key (s : string) : pykey :=
  if isdigit s then KInt (int_of_digits 0 s) else KStr s.

Fixpoint all_ascii (s : string) : bool :=
  match s with
  | EmptyString => true
  | String c t => (nat_of_ascii c <? 128)%nat && all_ascii t
  end.

(** The ids on which [natural_sort_key] above is the key of the scripts
    character by character: ASCII text, where [str.isdigit] accepts '0' to
    '9' only, of at most 4300 characters, the longest digit string that
    [int] converts by default. *)
Definition plain_id (s : string) : bool :=
  all_ascii s && (String.length s <=? 4300)%nat.

Definition is_int (k : pykey) : bool :=
  match k with
  | KInt _ => true
  | KStr _ => false
  end.

(** Python 3's [<] on sort keys: an [int] and a [str] do not compare. *)
Definition py_lt (a b : pykey) : result bool :=
  match a, b with
  | KInt x, KInt y => Ok (x <? y)
  | KStr x, KStr y => Ok (match kcmp x y with Lt => true | _ => false end)
  | _, _ => Raise TypeError
  end.

Section Sorted.
Context {A : Type}.
Variable key : A -> pykey.

Fixpoint py_insert (x : A) (l : list A) : result (list A) :=
  match l with
  | [] => Ok [x]
  | y :: t =>
      b <- py_lt (key x) (key y) ;;
      if b then Ok (x :: l)
      else t' <- py_insert x t ;; Ok (y :: t')
  end.

(** [sorted(l, key=key)]: a stable sort that only uses [<] on the keys;
    written as an insertion sort, each element going behind the elements
    already placed that are not greater. *)
Definition sorted (l : list A) : result (list A) :=
  fold_left (fun acc x => s <- acc ;; py_insert x s) l (Ok []).
End Sorted.

(** The sidebar lists, the same in both scripts:
    [sorted(df['Prabhag'].unique(), key=natural_sort_key)] and
    [sorted(df['Party'].unique())]. *)
Definition unique_prabhags (df : DataFrame) : result (list string) :=
  sorted natural_sort_key (unique (map Prabhag df)).

Definition unique_parties (df : DataFrame) : result (list string) :=
  sorted KStr (unique (map Party df)).

(* ------------------------------------------------------------------ *)
(** ** Charts and documents

    What [px.bar(frame, x=..., y=..., color=..., title=...)] receives: one
    bar per frame row, in row order.  The image is the PNG byte string that
    [fig.to_image] returns; rendering is the external collaborator.

    A document records the pages that the loop of a report adds.  The page
    calls of FPDF themselves ([add_page], [set_font], [cell], [multi_cell],
    [image], and the write of the temporary image file) are taken to
    succeed: what is said below about a report that returns normally, or
    about where an exception comes from, is said under this reading. *)

Record Bar : Type := mkBar {
  bar_x : string;
  bar_y : Z;
  bar_color : string
}.

Record Figure : Type := mkFigure {
  fig_title : string;
  fig_bars : list Bar
}.

Definition Image : Type := string.

Inductive PageBody : Type :=
| Chart (img : Image)
| TextBlock (heading : string) (lines : list string).

Record Page : Type := mkPage {
  page_title : string;
  page_body : PageBody
}.

(** The FPDF object after the loop: the footer text and the pages added. *)
Record Document : Type := mkDoc {
  doc_watermark : string;
  doc_pages : list Page
}.

(** Python's [{n:,}]: decimal digits with a comma every three digits. *)
Fixpoint sep_rev (n : nat) (l : list ascii) : list ascii :=
  match l with
  | [] => []
  | c :: t =>
      match n, t with
      | 2%nat, _ :: _ => c :: ","%char :: sep_rev 0 t
      | _, _ => c :: sep_rev (S n) t
      end
  end.

Definition group_thousands (digits : string) : string :=
  string_of_list_ascii (rev (sep_rev 0 (rev (list_ascii_of_string digits)))).

Definition format_thousands (n : Z) : string :=
  if n <? 0 then "-" ++ group_thousands (NilZero.string_of_int (Z.to_int (- n)))
  else group_thousands (NilZero.string_of_int (Z.to_int n)).

(* ------------------------------------------------------------------ *)
(** ** app.py: get_margin_analysis *)

Module App.

Record MarginRow : Type := mkMargin {
  m_Prabhag : string;
  m_Election_type : string;
  Name_W : string;
  Party_W : string;
  Votes_W : Z;
  Votes_R : Z;
  Party_R : string;
  Name_R : string;
  Margin : Z
}.

Definition winners (data : DataFrame) : DataFrame := head grp 1 (sorted_agg data).

Definition runners (data : DataFrame) : DataFrame := nth_row grp 1 (sorted_agg data).

(** [pd.merge(winners, runners[...], on=['Prabhag','Election_type'],
    suffixes=('_W','_R'))], an inner join in the order of the left frame,
    followed by the [Margin] column (an int64 difference). *)
Definition margin_row (w r : Row) : MarginRow :=
  mkMargin (Prabhag w) (Election_type w) (Name w) (Party w) (Votes w)
           (Votes r) (Party r) (Name r) (wrap64 (Votes w - Votes r)).

Definition merge (ws rs : DataFrame) : list MarginRow :=
  flat_map (fun w => map (margin_row w) (filter (fun r => same_group grp r w) rs)) ws.

Definition m_grp (m : MarginRow) : string * string := (m_Prabhag m, m_Election_type m).

Definition get_margin_analysis (data : DataFrame) : list MarginRow :=
  merge (winners data) (runners data).

(** *** Export Center (tab 5) *)

(** Row order of [type_df.sort_values('Margin')]; rows of equal margin are
    kept in the order of [type_df], the order in which pandas leaves them
    is not fixed by its default sort. *)
Definition by_margin (a b : MarginRow) : comparison := Z.compare (Margin a) (Margin b).

Section ExportCenter.
Variable to_image : Figure -> result Image.

(** [df[(df['Prabhag'].isin(...)) & (df['Party'].isin(...))]] *)
Definition f_df (df : DataFrame) (selected_pdf_prabhags selected_pdf_parties : list string)
  : DataFrame :=
  filter (fun r => isin (Prabhag r) selected_pdf_prabhags
                   && isin (Party r) selected_pdf_parties) df.

(** [p_df.groupby(['Name','Party'])['Votes'].sum().reset_index()] as bars
    with x='Name', y='Votes', color='Party'. *)
Definition chart_data (p_df : DataFrame) : list Bar :=
  map (fun e => mkBar (fst (fst e)) (snd e) (snd (fst e)))
      (groupby_sum (fun r => (Name r, Party r)) p_df).

Definition result_page (f : DataFrame) (prabhag : string) : result Page :=
  let p_df := filter (fun r => keqb (Prabhag r) prabhag) f in
  img_bytes <- to_image (mkFigure ("Prabhag " ++ prabhag ++ " Summary") (chart_data p_df)) ;;
  Ok (mkPage ("Result: Prabhag " ++ prabhag) (Chart img_bytes)).

(** The "Generate Full Result PDF" button, lines 169-191. *)
Definition full_result_pdf (df : DataFrame)
    (selected_pdf_prabhags selected_pdf_parties : list string) (watermark : string)
  : result Document :=
  let f := f_df df selected_pdf_prabhags selected_pdf_parties in
  report_prabhags <- sorted natural_sort_key (unique (map Prabhag f)) ;;
  pages <- mapM (result_page f) report_prabhags ;;
  Ok (mkDoc watermark pages).

(** [m_report_df] of lines 199-200. *)
Definition m_report_df (df : DataFrame) (selected_pdf_prabhags : list string)
  : list MarginRow :=
  filter (fun m => isin (m_Prabhag m) selected_pdf_prabhags) (get_margin_analysis df).

Definition margin_page (m_report : list MarginRow) (etype : string) : result Page :=
  let type_df := filter (fun m => keqb (m_Election_type m) etype) m_report in
  img_bytes_m <- to_image
    (mkFigure ("Margins for " ++ etype)
       (map (fun m => mkBar (m_Prabhag m) (Margin m) (Party_W m))
            (sort_values by_margin type_df))) ;;
  Ok (mkPage ("Margin Report: " ++ etype) (Chart img_bytes_m)).

(** The "Generate Margin Report PDF" button, lines 196-216. *)
Definition margin_report_pdf (df : DataFrame)
    (selected_pdf_prabhags selected_pdf_parties : list string) (watermark : string)
  : result Document :=
  let m_report := m_report_df df selected_pdf_prabhags in
  etypes <- sorted KStr (unique (map m_Election_type m_report)) ;;
  pages <- mapM (margin_page m_report) etypes ;;
  Ok (mkDoc watermark pages).
End ExportCenter.

(** *** City Insights (tab 3): the counts behind the strike rate *)

(** [df.groupby('Party')['Name'].nunique().reset_index(name='Candidates')] *)
Definition total_cand (df : DataFrame) : list (string * nat) :=
  map (fun q => (q, List.length (unique (map Name (filter (fun r => keqb (Party r) q) df)))))
      (sorted_unique (map Party df)).

(** [winners_agg.groupby('Party_W').size().reset_index(name='Wins')] *)
Definition total_wins (winners_agg : list MarginRow) : list (string * nat) :=
  map (fun q => (q, List.length (filter (fun m => keqb (Party_W m) q) winners_agg)))
      (sorted_unique (map Party_W winners_agg)).

Record StrikeRow : Type := mkStrike {
  s_Party : string;
  Candidates : nat;
  Wins : nat
}.

(** [pd.merge(total_cand, total_wins, left_on='Party', right_on='Party_W',
    how='left').fillna(0)]: every party of the table, with 0 wins when it
    has no row in [total_wins]; the columns up to [Wins]. *)
Definition strike_rate_df (df : DataFrame) : list StrikeRow :=
  flat_map (fun pc =>
    match filter (fun pw => keqb (fst pw) (fst pc)) (total_wins (get_margin_analysis df)) with
    | [] => [mkStrike (fst pc) (snd pc) 0]
    | pws => map (fun pw => mkStrike (fst pc) (snd pc) (snd pw)) pws
    end) (total_cand df).

End App.

(* ------------------------------------------------------------------ *)
(** ** v2app.py: the margin table of the "Margin Comparison" tab *)

Module V2.

Record PivotRow : Type := mkPivot {
  p_Prabhag : string;
  Category : string;
  Winner : option string;
  RunnerUp : option string;
  Win_Party : option string;
  Run_Party : option string;
  Win_Votes : option Z;
  Run_Votes : option Z;
  Margin : Z
}.

Definition top_2 (data : DataFrame) : DataFrame := head grp 2 (sorted_agg data).

(** [top_2] with its [Rank] column, [cumcount() + 1]. *)
Definition ranked (data : DataFrame) : list (nat * Row) :=
  map (fun cr => (S (fst cr), snd cr)) (cumcount grp (top_2 data)).

Section Pivot.
Variable frame : list (nat * Row).

Definition pivot_index : list (string * string) :=
  sorted_unique (map (fun cr => grp (snd cr)) frame).

Definition pivot_columns : list nat := sorted_unique (map fst frame).

Definition cells (g : string * string) (k : nat) : list (nat * Row) :=
  filter (fun cr => keqb (grp (snd cr)) g && Nat.eqb (fst cr) k) frame.

(** The value at index [g], column [k]; NaN ([None]) when no row has it. *)
Definition cell (g : string * string) (k : nat) : option Row :=
  match cells g k with
  | cr :: _ => Some (snd cr)
  | [] => None
  end.

(** [pivot] refuses an index that contains duplicate entries. *)
Definition reshapable : bool :=
  forallb (fun g =>
    forallb (fun k => Nat.leb (List.length (cells g k)) 1) pivot_columns)
    pivot_index.
End Pivot.

(** [(pivot['Win_Votes'] - pivot['Run_Votes'].fillna(0)).astype(int)];
    the pivoted columns are object columns of Python integers. *)
Definition margin_of (w r : option Z) : result Z :=
  match w with
  | None => Raise ValueError
  | Some wv => astype_int (wv - match r with Some rv => rv | None => 0 end)
  end.

Definition pivot_row (frame : list (nat * Row)) (k1 k2 : nat)
    (g : string * string) : result PivotRow :=
  let w := cell frame g k1 in
  let r := cell frame g k2 in
  m <- margin_of (option_map Votes w) (option_map Votes r) ;;
  Ok (mkPivot (fst g) (snd g)
              (option_map Name w) (option_map Name r)
              (option_map Party w) (option_map Party r)
              (option_map Votes w) (option_map Votes r) m).

Definition p_grp (p : PivotRow) : string * string := (p_Prabhag p, Category p).

(** Lines 212-220.  Assigning the eight column names raises unless the
    pivot has exactly two [Rank] columns. *)
Definition pivot_margin (data : DataFrame) : result (list PivotRow) :=
  let frame := ranked data in
  if reshapable frame then
    match pivot_columns frame with
    | [k1; k2] => mapM (pivot_row frame k1 k2) (pivot_index frame)
    | _ => Raise ValueError
    end
  else Raise ValueError.

(** The pivot row of a group in terms of its ranked rows [rows]: the
    closed form of [pivot_row], used to state what [pivot_margin] returns. *)
Definition pivot_row_of (g : string * string) (rows : list Row) : PivotRow :=
  let w := hd_error rows in
  let r := hd_error (tl rows) in
  mkPivot (fst g) (snd g)
          (option_map Name w) (option_map Name r)
          (option_map Party w) (option_map Party r)
          (option_map Votes w) (option_map Votes r)
          (match w, r with
           | Some w', Some r' => Votes w' - Votes r'
           | Some w', None => Votes w'
           | None, _ => 0
           end).

(** *** generate_pdf *)

Record ChartRow : Type := mkChartRow {
  c_Name : string;
  c_Party : string;
  c_Election_type : string;
  c_Votes : Z
}.

(** Row order of [sort_values(by=['Party','Votes'], ascending=[True,False])]. *)
Definition by_party_votes_desc (a b : ChartRow) : comparison :=
  lex (kcmp (c_Party a) (c_Party b)) (Z.compare (c_Votes b) (c_Votes a)).

Definition chart_data (p_df : DataFrame) : list ChartRow :=
  sort_values by_party_votes_desc
    (map (fun e => let '((n, q, t), v) := e in mkChartRow n q t v)
         (groupby_sum (fun r => (Name r, Party r, Election_type r)) p_df)).

(** [f"{row['Name']} ({row['Party']}): {row['Votes']:,} votes"] *)
Definition summary_line (row : ChartRow) : string :=
  c_Name row ++ " (" ++ c_Party row ++ "): " ++ format_thousands (c_Votes row) ++ " votes".

Section GeneratePdf.
Variable to_image : Figure -> result Image.
(** [pdf.output(dest='S')] and [pdf.output()], the document sink. *)
Variable output_S : Document -> result string.
Variable output : Document -> result string.

Definition filtered_df (data : DataFrame) (prabhag_list party_list : list string)
  : DataFrame :=
  filter (fun r => isin (Prabhag r) prabhag_list && isin (Party r) party_list) data.

(** One turn of the loop, lines 103-164: the [try] block puts the chart on
    the page, the [except Exception] branch writes the summary lines. *)
Definition report_page (f : DataFrame) (prabhag : string) : Page :=
  let p_df := filter (fun r => keqb (Prabhag r) prabhag) f in
  let rows := chart_data p_df in
  let fig := mkFigure ("Vote Distribution - Prabhag " ++ prabhag)
               (map (fun row => mkBar (c_Name row) (c_Votes row) (c_Party row)) rows) in
  mkPage ("Election Report: Prabhag " ++ prabhag)
    match to_image fig with
    | Ok img_bytes => Chart img_bytes
    | Raise _ =>
        TextBlock "Candidate Vote Summary (Chart unavailable):" (map summary_line rows)
    end.

(** Lines 87-166: [None] when there is nothing to render, otherwise the
    document with one page per unit of [report_prabhags]. *)
Definition compose (data : DataFrame) (prabhag_list party_list : list string)
    (watermark_text : string) : result (option Document) :=
  let f := filtered_df data prabhag_list party_list in
  report_prabhags <- sorted natural_sort_key (unique (map Prabhag f)) ;;
  match report_prabhags with
  | [] => Ok None
  | _ => Ok (Some (mkDoc watermark_text (map (report_page f) report_prabhags)))
  end.

(** Lines 169-186: the serialisation fall-back chain. *)
Definition serialise (pdf : Document) : string :=
  match output_S pdf with
  | Ok pdf_output => pdf_output
  | Raise _ =>
      match output pdf with
      | Ok pdf_output => pdf_output
      | Raise _ => "PDF generation failed"
      end
  end.

Definition generate_pdf (data : DataFrame) (prabhag_list party_list : list string)
    (watermark_text : string) : result (option string) :=
  doc <- compose data prabhag_list party_list watermark_text ;;
  Ok (option_map serialise doc).

(** *** Export Center (tab 4), lines 263-284 *)

Inductive ExportOutcome : Type :=
| SelectPrabhag                 (* "Please select at least one Prabhag in the sidebar." *)
| Download (data : string)      (* success message and download button *)
| GenerationFailed.             (* "Failed to generate PDF. ..." *)

(** A click on "Generate PDF Report".  [if pdf_out and pdf_out != ...]
    is false for [None] and for an empty byte string. *)
Definition export_click (df : DataFrame)
    (selected_pdf_prabhags selected_pdf_parties : list string) (watermark : string)
  : result ExportOutcome :=
  match selected_pdf_prabhags with
  | [] => Ok SelectPrabhag
  | _ =>
      pdf_out <- generate_pdf df selected_pdf_prabhags selected_pdf_parties watermark ;;
      match pdf_out with
      | Some b =>
          if negb (String.eqb b "") && negb (String.eqb b "PDF generation failed")
          then Ok (Download b)
          else Ok GenerationFailed
      | None => Ok GenerationFailed
      end
  end.
End GeneratePdf.

End V2.

(* ------------------------------------------------------------------ *)
(** ** Example tables *)

(** Unit "5", category "General": A 120, B 95, C 95. *)
Definition tie_rows : DataFrame :=
  [ mkRow "5" "General" "A" "PartyX" 120;
    mkRow "5" "General" "B" "PartyY" 95;
    mkRow "5" "General" "C" "PartyX" 95 ].

(** The same records with C entered before B. *)
Definition tie_rows_swapped : DataFrame :=
  [ mkRow "5" "General" "A" "PartyX" 120;
    mkRow "5" "General" "C" "PartyX" 95;
    mkRow "5" "General" "B" "PartyY" 95 ].

(** A table whose only group has a single candidate. *)
Definition unopposed_rows : DataFrame :=
  [ mkRow "5" "General" "A" "PartyX" 120 ].

(** A contested group in unit "5" and an unopposed one in unit "6". *)
Definition mixed_rows : DataFrame :=
  [ mkRow "5" "General" "A" "PartyX" 120;
    mkRow "5" "General" "B" "PartyY" 95;
    mkRow "6" "General" "C" "PartyX" 95 ].

(** Unit "5" with two PartyX candidates around a PartyY candidate. *)
Definition party_rows : DataFrame :=
  [ mkRow "5" "General" "A" "PartyX" 120;
    mkRow "5" "General" "B" "PartyY" 95;
    mkRow "5" "General" "C" "PartyX" 50 ].

(** Units "7" and "8". *)
Definition two_unit_rows : DataFrame :=
  [ mkRow "7" "General" "A" "PartyX" 1200;
    mkRow "7" "General" "B" "PartyY" 950;
    mkRow "8" "General" "C" "PartyX" 700 ].

(** Two rows of candidate A whose votes add up past the largest value of
    the 64-bit Votes column, and one row of candidate B. *)
Definition overflow_rows : DataFrame :=
  [ mkRow "5" "General" "A" "PartyX" (2 ^ 62);
    mkRow "5" "General" "A" "PartyX" (2 ^ 62);
    mkRow "5" "General" "B" "PartyY" 5 ].

(** A numeric unit id beside a named one. *)
Definition ward_rows : DataFrame :=
  [ mkRow "5" "General" "A" "PartyX" 120;
    mkRow "Ward-A" "General" "B" "PartyY" 95 ].

(** A renderer that returns the chart title as image bytes. *)
Definition title_image (fig : Figure) : result Image := Ok (fig_title fig).

(** A renderer whose image bytes spell out the bars of the chart. *)
Definition bars_image (fig : Figure) : result Image :=
  Ok (fig_title fig ++ ": " ++
      String.concat ", "
        (map (fun b => bar_x b ++ "=" ++ format_thousands (bar_y b) ++ " " ++ bar_color b)
             (fig_bars fig))).

(** A renderer that fails on the charts of unit "7". *)
Definition fails_on_7 (fig : Figure) : result Image :=
  if String.eqb (fig_title fig) "Prabhag 7 Summary"
     || String.eqb (fig_title fig) "Vote Distribution - Prabhag 7"
  then Raise RenderError
  else Ok (fig_title fig).

(** A document sink that returns the page titles. *)
Definition titles_output (pdf : Document) : result string :=
  Ok (String.concat "|" (map page_title (doc_pages pdf))).

(* ================================================================== *)
(** * Properties *)

(* ------------------------------------------------------------------ *)
(** ** The key orders are strict total orders *)

Lemma string_lt_irrefl (a : string) : ~ String_as_OT.lt a a.
Proof. exact (@StrictOrder_Irreflexive _ _ String_as_OT.lt_strorder a). Qed.

Lemma string_lt_trans (a b c : string) :
  String_as_OT.lt a b -> String_as_OT.lt b c -> String_as_OT.lt a c.
Proof. exact (@StrictOrder_Transitive _ _ String_as_OT.lt_strorder a b c). Qed.

Lemma string_cmp_eq (a b : string) : String_as_OT.compare a b = Eq <-> a = b.
Proof.
  destruct (String_as_OT.compare_spec a b) as [E | L | L]; split; intro H;
    unfold String_as_OT.eq in *; try discriminate; try assumption;
    try reflexivity; subst; exfalso; exact (string_lt_irrefl _ L).
Qed.

Lemma string_cmp_antisym (a b : string) :
  String_as_OT.compare b a = CompOpp (String_as_OT.compare a b).
Proof.
  destruct (String_as_OT.compare_spec a b) as [E | L | L];
    destruct (String_as_OT.compare_spec b a) as [E' | L' | L'];
    unfold String_as_OT.eq in *; simpl; try reflexivity; subst; exfalso;
    match goal with
    | [ H : String_as_OT.lt ?x ?x |- _ ] => exact (string_lt_irrefl _ H)
    | [ H1 : String_as_OT.lt ?x ?y, H2 : String_as_OT.lt ?y ?x |- _ ] =>
        exact (string_lt_irrefl _ (string_lt_trans _ _ _ H1 H2))
    end.
Qed.

#[export] Instance string_KeyOrderLaws : KeyOrderLaws string := {
  kcmp_eq := string_cmp_eq;
  kcmp_antisym := string_cmp_antisym;
  kcmp_trans := string_lt_trans
}.

#[export] Instance nat_KeyOrderLaws : KeyOrderLaws nat.
Proof.
  split; simpl.
  - apply Nat.compare_eq_iff.
  - intros a b. apply Nat.compare_antisym.
  - intros a b c. rewrite !Nat.compare_lt_iff. lia.
Qed.

#[export] Instance Z_KeyOrderLaws : KeyOrderLaws Z.
Proof.
  split; simpl.
  - apply Z.compare_eq_iff.
  - intros a b. apply Z.compare_antisym.
  - intros a b c. rewrite !Z.compare_lt_iff. lia.
Qed.

Section PairOrder.
Context {A B : Type} `{KeyOrderLaws A} `{KeyOrderLaws B}.

Lemma pair_cmp_eq (x y : A * B) : pair_cmp x y = Eq <-> x = y.
Proof.
  destruct x as [a b], y as [a' b']. unfold pair_cmp, lex. simpl.
  destruct (kcmp a a') eqn:E.
  - apply kcmp_eq in E. subst. rewrite kcmp_eq. split; congruence.
  - split; [discriminate |]. intro H'. inversion H'; subst.
    assert (kcmp a' a' = Eq) by (apply kcmp_eq; reflexivity). congruence.
  - split; [discriminate |]. intro H'. inversion H'; subst.
    assert (kcmp a' a' = Eq) by (apply kcmp_eq; reflexivity). congruence.
Qed.

Lemma pair_cmp_antisym (x y : A * B) : pair_cmp y x = CompOpp (pair_cmp x y).
Proof.
  destruct x as [a b], y as [a' b']. unfold pair_cmp, lex. simpl.
  rewrite (kcmp_antisym a a'). destruct (kcmp a a'); simpl; auto.
  apply kcmp_antisym.
Qed.

Lemma pair_cmp_trans (x y z : A * B) :
  pair_cmp x y = Lt -> pair_cmp y z = Lt -> pair_cmp x z = Lt.
Proof.
  destruct x as [a b], y as [a' b'], z as [a'' b'']. unfold pair_cmp, lex. simpl.
  destruct (kcmp a a') eqn:E1; try discriminate;
    destruct (kcmp a' a'') eqn:E2; try discriminate; intros H1' H2'.
  - apply kcmp_eq in E1, E2. subst.
    assert (kcmp a'' a'' = Eq) as -> by (apply kcmp_eq; reflexivity).
    eapply kcmp_trans; eassumption.
  - apply kcmp_eq in E1. subst. rewrite E2. reflexivity.
  - apply kcmp_eq in E2. subst. rewrite E1. reflexivity.
  - rewrite (kcmp_trans _ _ _ E1 E2). reflexivity.
Qed.

#[export] Instance pair_KeyOrderLaws : KeyOrderLaws (A * B) := {
  kcmp_eq := pair_cmp_eq;
  kcmp_antisym := pair_cmp_antisym;
  kcmp_trans := pair_cmp_trans
}.
End PairOrder.

Section KeyOrderFacts.
Context {K : Type} `{KeyOrderLaws K}.

Lemma kcmp_refl (a : K) : kcmp a a = Eq.
Proof. apply kcmp_eq. reflexivity. Qed.

Lemma kcmp_gt_lt (a b : K) : kcmp a b = Gt <-> kcmp b a = Lt.
Proof.
  rewrite (kcmp_antisym a b). destruct (kcmp a b); simpl; split; congruence.
Qed.

Lemma kcmp_lt_irrefl (a : K) : kcmp a a <> Lt.
Proof. rewrite kcmp_refl. discriminate. Qed.

Lemma keqb_eq (a b : K) : keqb a b = true <-> a = b.
Proof.
  unfold keqb. rewrite <- kcmp_eq. destruct (kcmp a b); split; congruence.
Qed.

Lemma keqb_refl (a : K) : keqb a a = true.
Proof. apply keqb_eq. reflexivity. Qed.

Lemma keqb_neq (a b : K) : keqb a b = false <-> a <> b.
Proof.
  rewrite <- keqb_eq. destruct (keqb a b); split; congruence.
Qed.

Lemma keqb_sym (a b : K) : keqb a b = keqb b a.
Proof.
  destruct (keqb a b) eqn:E1, (keqb b a) eqn:E2; try reflexivity.
  - apply keqb_eq in E1. subst. rewrite keqb_refl in E2. discriminate.
  - apply keqb_eq in E2. subst. rewrite keqb_refl in E1. discriminate.
Qed.
End KeyOrderFacts.

(* ------------------------------------------------------------------ *)
(** ** Lists *)

Lemma Forall_filter_keep {A : Type} (P : A -> Prop) (f : A -> bool) (l : list A) :
  Forall P l -> Forall P (filter f l).
Proof.
  induction 1 as [| a l Ha F IH]; simpl; [constructor |].
  destruct (f a); [constructor |]; assumption.
Qed.

(* ------------------------------------------------------------------ *)
(** ** int64 arithmetic *)

Lemma wrap64_range (z : Z) : int64_min <= wrap64 z <= int64_max.
Proof.
  unfold wrap64, int64_min, int64_max.
  pose proof (Z.mod_pos_bound (z + 2 ^ 63) (2 ^ 64) ltac:(lia)). lia.
Qed.

Lemma wrap64_id (z : Z) : int64_min <= z <= int64_max -> wrap64 z = z.
Proof.
  unfold wrap64, int64_min, int64_max. intros Hz.
  rewrite Z.mod_small by lia. lia.
Qed.

Lemma wrap64_add_l (a b : Z) : wrap64 (wrap64 a + b) = wrap64 (a + b).
Proof.
  unfold wrap64.
  replace ((a + 2 ^ 63) mod 2 ^ 64 - 2 ^ 63 + b + 2 ^ 63)
    with ((a + 2 ^ 63) mod 2 ^ 64 + b) by lia.
  rewrite Zplus_mod_idemp_l.
  replace (a + 2 ^ 63 + b) with (a + b + 2 ^ 63) by lia. reflexivity.
Qed.

Lemma in_int64_true (z : Z) : in_int64 z = true <-> int64_min <= z <= int64_max.
Proof. unfold in_int64. rewrite andb_true_iff, !Z.leb_le. reflexivity. Qed.

(* ------------------------------------------------------------------ *)
(** ** groupby(...).sum() *)

Section GroupBySumFacts.
Context {K : Type} `{KeyOrderLaws K}.
Variable key : Row -> K.

Ltac kcmp_rewrite :=
  repeat match goal with
         | [ E : kcmp ?a ?b = _ |- context [kcmp ?a ?b] ] => rewrite E
         | [ |- context [kcmp ?a ?a] ] => rewrite (kcmp_refl a)
         end.

Lemma add_votes_comm (k1 k2 : K) (v1 v2 : Z) (m : list (K * Z)) :
  add_votes k1 v1 (add_votes k2 v2 m) = add_votes k2 v2 (add_votes k1 v1 m).
Proof.
  induction m as [| [k s] m IH]; simpl.
  - rewrite (kcmp_antisym k1 k2). destruct (kcmp k1 k2) eqn:E; simpl; try reflexivity.
    apply kcmp_eq in E. subst.
    rewrite !wrap64_add_l. f_equal. f_equal. f_equal. lia.
  - pose proof (kcmp_antisym k1 k2) as E21.
    destruct (kcmp k1 k2) eqn:E12; simpl in E21;
      destruct (kcmp k2 k) eqn:E2; destruct (kcmp k1 k) eqn:E1;
      repeat match goal with
             | [ E : kcmp _ _ = Eq |- _ ] => apply kcmp_eq in E; subst
             end;
      try (rewrite kcmp_refl in *; discriminate);
      try congruence;
      try (exfalso;
           match goal with
           | [ E : kcmp ?a ?b = Gt |- _ ] => apply kcmp_gt_lt in E
           end;
           repeat match goal with
                  | [ E : kcmp ?a ?b = Gt |- _ ] => apply kcmp_gt_lt in E
                  end;
           match goal with
           | [ E : kcmp ?a ?b = Lt, E' : kcmp ?b ?a = Lt |- _ ] =>
               exact (kcmp_lt_irrefl a (kcmp_trans _ _ _ E E'))
           | [ E : kcmp ?a ?b = Lt, E' : kcmp ?b ?c = Lt, E'' : kcmp ?c ?a = Lt |- _ ] =>
               exact (kcmp_lt_irrefl a (kcmp_trans _ _ _ E (kcmp_trans _ _ _ E' E'')))
           end);
      repeat (cbn [add_votes]; kcmp_rewrite);
      rewrite ?wrap64_add_l, ?IH; try reflexivity.
    all: f_equal; f_equal; f_equal; lia.
Qed.

Lemma groupby_fold_perm (l l' : DataFrame) :
  Permutation l l' ->
  forall acc,
    fold_left (fun a r => add_votes (key r) (Votes r) a) l acc =
    fold_left (fun a r => add_votes (key r) (Votes r) a) l' acc.
Proof.
  induction 1; intros acc; simpl.
  - reflexivity.
  - apply IHPermutation.
  - rewrite add_votes_comm. reflexivity.
  - rewrite IHPermutation1. apply IHPermutation2.
Qed.

Lemma groupby_sum_perm (l l' : DataFrame) :
  Permutation l l' -> groupby_sum key l = groupby_sum key l'.
Proof. intros P. unfold groupby_sum. apply groupby_fold_perm. exact P. Qed.
Lemma add_votes_below (k : K) (v : Z) (m : list (K * Z)) :
  Forall (fun e => kcmp k (fst e) = Lt) m ->
  add_votes k v m = (k, wrap64 v) :: m.
Proof.
  destruct m as [| [k' s] m]; simpl; [reflexivity |].
  intros F. inversion F as [| ? ? Hk ?]; subst. simpl in Hk. rewrite Hk. reflexivity.
Qed.

Lemma add_votes_keys (k : K) (v : Z) (m : list (K * Z)) (P : K -> Prop) :
  P k -> Forall (fun e => P (fst e)) m -> Forall (fun e => P (fst e)) (add_votes k v m).
Proof.
  intros Pk. induction m as [| [k' s] m IH]; simpl; intros F.
  - constructor; [exact Pk | constructor].
  - inversion F as [| ? ? Hk Hm]; subst. destruct (kcmp k k') eqn:E.
    + constructor; assumption.
    + constructor; [exact Pk | exact F].
    + constructor; [exact Hk | apply IH; exact Hm].
Qed.

Lemma add_votes_sorted (k : K) (v : Z) (m : list (K * Z)) :
  keys_sorted m -> keys_sorted (add_votes k v m).
Proof.
  unfold keys_sorted. induction m as [| [k' s] m IH]; simpl; intros S.
  - constructor; constructor.
  - inversion S as [| ? ? Sm Fm]; subst. destruct (kcmp k k') eqn:E.
    + constructor; assumption.
    + constructor; [exact S |]. constructor; [exact E |].
      eapply Forall_impl; [| exact Fm]. simpl. intros e He.
      eapply kcmp_trans; eassumption.
    + constructor; [apply IH; exact Sm |].
      apply (add_votes_keys k v m (fun x => kcmp k' x = Lt)).
      * apply kcmp_gt_lt. exact E.
      * exact Fm.
Qed.

Lemma groupby_fold_sorted (data : DataFrame) (acc : list (K * Z)) :
  keys_sorted acc ->
  keys_sorted (fold_left (fun a r => add_votes (key r) (Votes r) a) data acc).
Proof.
  revert acc. induction data as [| r data IH]; simpl; intros acc S.
  - exact S.
  - apply IH. apply add_votes_sorted. exact S.
Qed.

Lemma groupby_sum_sorted (data : DataFrame) : keys_sorted (groupby_sum key data).
Proof. apply groupby_fold_sorted. constructor. Qed.

(** Filtering rows on a predicate of the group key commutes with the
    aggregation. *)
Lemma add_votes_filter (p : K -> bool) (k : K) (v : Z) (m : list (K * Z)) :
  keys_sorted m ->
  filter (fun e => p (fst e)) (add_votes k v m) =
  if p k then add_votes k v (filter (fun e => p (fst e)) m)
  else filter (fun e => p (fst e)) m.
Proof.
  unfold keys_sorted. induction m as [| [k' s] m IH]; simpl; intros S.
  - destruct (p k); reflexivity.
  - inversion S as [| ? ? Sm Fm]; subst. simpl in Fm.
    destruct (kcmp k k') eqn:E; simpl.
    + apply kcmp_eq in E. subst k'. destruct (p k); simpl.
      * rewrite kcmp_refl. reflexivity.
      * reflexivity.
    + destruct (p k) eqn:Pk.
      * rewrite add_votes_below; [reflexivity |].
        assert (Forall (fun e => kcmp k (fst e) = Lt) ((k', s) :: m)) as F.
        { constructor; [exact E |]. eapply Forall_impl; [| exact Fm].
          simpl. intros e He. eapply kcmp_trans; eassumption. }
        apply (Forall_filter_keep _ (fun e => p (fst e))) in F. exact F.
      * reflexivity.
    + rewrite (IH Sm). destruct (p k), (p k'); simpl; rewrite ?E; reflexivity.
Qed.

Lemma filter_keys_sorted (p : K -> bool) (m : list (K * Z)) :
  keys_sorted m -> keys_sorted (filter (fun e => p (fst e)) m).
Proof.
  unfold keys_sorted. induction 1 as [| e m S IH F]; simpl; [constructor |].
  destruct (p (fst e)); [| exact IH].
  constructor; [exact IH |].
  apply Forall_filter_keep. exact F.
Qed.

Lemma groupby_fold_filter (p : K -> bool) (data : DataFrame) (acc : list (K * Z)) :
  keys_sorted acc ->
  filter (fun e => p (fst e))
    (fold_left (fun a r => add_votes (key r) (Votes r) a) data acc) =
  fold_left (fun a r => add_votes (key r) (Votes r) a)
    (filter (fun r => p (key r)) data) (filter (fun e => p (fst e)) acc).
Proof.
  revert acc. induction data as [| r data IH]; simpl; intros acc S.
  - reflexivity.
  - rewrite IH by (apply add_votes_sorted; exact S).
    rewrite add_votes_filter by exact S.
    destruct (p (key r)); reflexivity.
Qed.

Lemma groupby_sum_filter (p : K -> bool) (data : DataFrame) :
  groupby_sum key (filter (fun r => p (key r)) data) =
  filter (fun e => p (fst e)) (groupby_sum key data).
Proof.
  unfold groupby_sum. rewrite groupby_fold_filter by constructor. reflexivity.
Qed.

(** With non-negative votes whose column total fits in 64 bits, no sum
    wraps around. *)
Lemma add_votes_nonneg (k : K) (v : Z) (m : list (K * Z)) :
  0 <= v -> Forall (fun e => 0 <= snd e) m -> vsum m + v <= int64_max ->
  Forall (fun e => 0 <= snd e) (add_votes k v m) /\
  vsum (add_votes k v m) = vsum m + v.
Proof.
  intros Hv. unfold vsum.
  induction m as [| [k' s] m IH]; simpl; intros F B.
  - rewrite wrap64_id by (unfold int64_min; lia).
    split; [constructor; [simpl; lia | constructor] | lia].
  - inversion F as [| ? ? Hs Fm]; subst. simpl in Hs.
    assert (0 <= fold_right Z.add 0 (map snd m)) as Hm.
    { clear - Fm. induction Fm; simpl; lia. }
    destruct (kcmp k k') eqn:E; simpl.
    + rewrite wrap64_id by (unfold int64_min; lia).
      split; [constructor; [simpl; lia | exact Fm] | lia].
    + rewrite wrap64_id by (unfold int64_min; lia).
      split; [constructor; [simpl; lia | exact F] | lia].
    + destruct (IH Fm ltac:(lia)) as [F' S'].
      split; [constructor; [exact Hs | exact F'] | lia].
Qed.

Lemma groupby_fold_nonneg (data : DataFrame) (acc : list (K * Z)) :
  Forall (fun r => 0 <= Votes r) data ->
  Forall (fun e => 0 <= snd e) acc ->
  vsum acc + sum_votes data <= int64_max ->
  let m := fold_left (fun a r => add_votes (key r) (Votes r) a) data acc in
  Forall (fun e => 0 <= snd e) m /\ vsum m = vsum acc + sum_votes data.
Proof.
  revert acc. unfold sum_votes.
  induction data as [| r data IH]; simpl; intros acc Fd Fa B.
  - split; [exact Fa | lia].
  - inversion Fd as [| ? ? Hr Fd']; subst.
    assert (0 <= fold_right Z.add 0 (map Votes data)) as Hd.
    { clear - Fd'. induction Fd'; simpl; lia. }
    destruct (add_votes_nonneg (key r) (Votes r) acc Hr Fa ltac:(lia)) as [F' S'].
    destruct (IH _ Fd' F' ltac:(lia)) as [F'' S''].
    split; [exact F'' | lia].
Qed.

Lemma vsum_bound (m : list (K * Z)) :
  Forall (fun e => 0 <= snd e) m -> Forall (fun e => snd e <= vsum m) m.
Proof.
  unfold vsum. induction 1 as [| e m He F IH]; simpl; [constructor |].
  assert (0 <= fold_right Z.add 0 (map snd m)) as Hm.
  { clear - F. induction F; simpl; lia. }
  constructor; [lia |].
  eapply Forall_impl; [| exact IH]. simpl. intros. lia.
Qed.

Lemma groupby_sum_range (data : DataFrame) :
  Forall (fun r => 0 <= Votes r) data -> sum_votes data <= int64_max ->
  Forall (fun e => 0 <= snd e <= int64_max) (groupby_sum key data).
Proof.
  intros Fd B.
  destruct (groupby_fold_nonneg data [] Fd ltac:(constructor)
              ltac:(unfold vsum; simpl; lia)) as [F S].
  fold (groupby_sum key data) in F, S.
  pose proof (vsum_bound _ F) as U.
  rewrite Forall_forall in *. intros e He.
  specialize (F e He). specialize (U e He).
  replace (vsum []) with 0 in S by reflexivity. lia.
Qed.
End GroupBySumFacts.

(* ------------------------------------------------------------------ *)
(** ** sort_values *)

Lemma strongly_sorted_ext {A : Type} (R : A -> A -> Prop) :
  (forall a, ~ R a a) -> (forall a b c, R a b -> R b c -> R a c) ->
  forall l1 l2,
    StronglySorted R l1 -> StronglySorted R l2 ->
    (forall x, In x l1 <-> In x l2) -> l1 = l2.
Proof.
  intros Irr Tr l1. induction l1 as [| a t1 IH]; intros l2 S1 S2 E.
  - destruct l2 as [| b t2]; [reflexivity |].
    exfalso. apply (proj2 (E b)). left. reflexivity.
  - destruct l2 as [| b t2].
    + exfalso. apply (proj1 (E a)). left. reflexivity.
    + inversion S1 as [| ? ? S1' F1]; subst. inversion S2 as [| ? ? S2' F2]; subst.
      rewrite Forall_forall in F1, F2.
      assert (a = b) as ->.
      { destruct (proj1 (E a) (or_introl eq_refl)) as [Hab | Hab]; [congruence |].
        destruct (proj2 (E b) (or_introl eq_refl)) as [Hba | Hba]; [congruence |].
        exfalso. apply (Irr a). eapply Tr; [apply F1; exact Hba | apply F2; exact Hab]. }
      f_equal. apply IH; try assumption.
      intros x. split; intros Hx.
      * destruct (proj1 (E x) (or_intror Hx)) as [Hb | Hb]; [| exact Hb].
        subst x. exfalso. apply (Irr b). apply F1. exact Hx.
      * destruct (proj2 (E x) (or_intror Hx)) as [Hb | Hb]; [| exact Hb].
        subst x. exfalso. apply (Irr b). apply F2. exact Hx.
Qed.

Lemma strongly_sorted_filter {A : Type} (R : A -> A -> Prop) (f : A -> bool) (l : list A) :
  StronglySorted R l -> StronglySorted R (filter f l).
Proof.
  induction 1 as [| a l S IH F]; simpl; [constructor |].
  destruct (f a); [| exact IH].
  constructor; [exact IH | apply Forall_filter_keep; exact F].
Qed.

Section SortValuesFacts.
Context {A : Type}.
Variable cmp : A -> A -> comparison.

Lemma insert_sorted_perm (x : A) (l : list A) :
  Permutation (insert_sorted cmp x l) (x :: l).
Proof.
  induction l as [| y t IH]; simpl; [reflexivity |].
  destruct (cmp x y); try reflexivity.
  rewrite IH. apply perm_swap.
Qed.

Lemma sort_values_perm (l : list A) : Permutation (sort_values cmp l) l.
Proof.
  induction l as [| x t IH]; simpl; [reflexivity |].
  rewrite insert_sorted_perm. constructor. exact IH.
Qed.

Lemma sort_values_in (x : A) (l : list A) : In x (sort_values cmp l) <-> In x l.
Proof.
  split; apply Permutation_in; [| symmetry]; apply sort_values_perm.
Qed.

Lemma sort_values_ext (cmp' : A -> A -> comparison) (l : list A) :
  (forall a b, cmp a b = cmp' a b) -> sort_values cmp l = sort_values cmp' l.
Proof.
  intros E. induction l as [| x t IH]; simpl; [reflexivity |].
  rewrite IH. generalize (sort_values cmp' t). intros s.
  induction s as [| y s IHs]; simpl; [reflexivity |].
  rewrite E, IHs. reflexivity.
Qed.
End SortValuesFacts.

(** A stable sort on the key [f1] of a list that is in strictly ascending
    order of [f2] yields the list in ascending order of [(f1, f2)]: ties on
    [f1] are broken by [f2]. *)
Section StableSort.
Context {A K1 K2 : Type} `{KeyOrderLaws K1} `{KeyOrderLaws K2}.
Variable f1 : A -> K1.
Variable f2 : A -> K2.

Lemma insert_sorted_stable (x : A) (l : list A) :
  Forall (fun y => kcmp (f2 x) (f2 y) = Lt) l ->
  StronglySorted (fun a b => kcmp (f1 a, f2 a) (f1 b, f2 b) = Lt) l ->
  StronglySorted (fun a b => kcmp (f1 a, f2 a) (f1 b, f2 b) = Lt)
    (insert_sorted (fun a b => kcmp (f1 a) (f1 b)) x l).
Proof.
  induction l as [| y t IH]; simpl; intros F S.
  - constructor; constructor.
  - inversion F as [| ? ? Fy Ft]; subst. inversion S as [| ? ? St Fyt]; subst.
    assert (kcmp (f1 x) (f1 y) <> Gt ->
            Forall (fun b => kcmp (f1 x, f2 x) (f1 b, f2 b) = Lt) (y :: t)) as Hfront.
    { intros Hc.
      assert (kcmp (f1 x, f2 x) (f1 y, f2 y) = Lt) as Hxy.
      { simpl. unfold pair_cmp, lex. simpl.
        destruct (kcmp (f1 x) (f1 y)); [exact Fy | reflexivity | congruence]. }
      constructor; [exact Hxy |].
      eapply Forall_impl; [| exact Fyt]. intros z Hz.
      exact (kcmp_trans _ _ _ Hxy Hz). }
    destruct (kcmp (f1 x) (f1 y)) eqn:E.
    + constructor; [exact S | apply Hfront; discriminate].
    + constructor; [exact S | apply Hfront; discriminate].
    + constructor; [apply IH; assumption |].
      assert (kcmp (f1 y, f2 y) (f1 x, f2 x) = Lt) as Hyx.
      { simpl. unfold pair_cmp, lex. simpl.
        apply kcmp_gt_lt in E. rewrite E. reflexivity. }
      eapply Permutation_Forall; [symmetry; apply insert_sorted_perm |].
      constructor; assumption.
Qed.

Lemma sort_values_stable (l : list A) :
  StronglySorted (fun a b => kcmp (f2 a) (f2 b) = Lt) l ->
  StronglySorted (fun a b => kcmp (f1 a, f2 a) (f1 b, f2 b) = Lt)
    (sort_values (fun a b => kcmp (f1 a) (f1 b)) l).
Proof.
  induction 1 as [| x t S IH F]; simpl; [constructor |].
  apply insert_sorted_stable; [| exact IH].
  eapply Permutation_Forall; [symmetry; apply sort_values_perm | exact F].
Qed.
End StableSort.

(* ------------------------------------------------------------------ *)
(** ** groupby(...).cumcount(), head(n), nth(n) *)

Lemma filter_filter_comm {A : Type} (f g : A -> bool) (l : list A) :
  filter f (filter g l) = filter g (filter f l).
Proof.
  induction l as [| a l IH]; simpl; [reflexivity |].
  destruct (f a) eqn:Ef, (g a) eqn:Eg; simpl; rewrite ?Ef, ?Eg, IH; reflexivity.
Qed.

Lemma filter_map_comm {A B : Type} (f : B -> bool) (h : A -> B) (l : list A) :
  filter f (map h l) = map h (filter (fun a => f (h a)) l).
Proof.
  induction l as [| a l IH]; simpl; [reflexivity |].
  destruct (f (h a)); simpl; rewrite IH; reflexivity.
Qed.

Lemma filter_ext_in' {A : Type} (f g : A -> bool) (l : list A) :
  (forall a, In a l -> f a = g a) -> filter f l = filter g l.
Proof.
  induction l as [| a l IH]; simpl; intros E; [reflexivity |].
  rewrite (E a (or_introl eq_refl)), IH; [reflexivity |].
  intros b Hb. apply E. right. exact Hb.
Qed.

Lemma combine_seq_lt {A : Type} (n s : nat) (l : list A) :
  map snd (filter (fun cr => Nat.ltb (fst cr) n) (combine (seq s (List.length l)) l)) =
  firstn (n - s) l.
Proof.
  revert s. induction l as [| a l IH]; intros s; simpl.
  - rewrite firstn_nil. reflexivity.
  - destruct (Nat.ltb s n) eqn:E.
    + apply Nat.ltb_lt in E. simpl. rewrite IH.
      replace (n - s)%nat with (S (n - S s)) by lia. reflexivity.
    + apply Nat.ltb_ge in E. rewrite IH.
      replace (n - s)%nat with 0%nat by lia.
      replace (n - S s)%nat with 0%nat by lia. reflexivity.
Qed.

Lemma combine_seq_eq {A : Type} (n s : nat) (l : list A) :
  (s <= n)%nat ->
  map snd (filter (fun cr => Nat.eqb (fst cr) n) (combine (seq s (List.length l)) l)) =
  firstn 1 (skipn (n - s) l).
Proof.
  revert s. induction l as [| a l IH]; intros s Hs; simpl.
  - rewrite skipn_nil. reflexivity.
  - destruct (Nat.eqb s n) eqn:E.
    + apply Nat.eqb_eq in E. subst s. simpl. rewrite Nat.sub_diag. simpl.
      f_equal.
      assert (forall m (l' : list A), (n < m)%nat ->
                filter (fun cr => Nat.eqb (fst cr) n) (combine (seq m (List.length l')) l') = [])
        as Hnone.
      { intros m l'. revert m. induction l' as [| b l' IH']; intros m Hm; simpl.
        - reflexivity.
        - destruct (Nat.eqb m n) eqn:E'; [apply Nat.eqb_eq in E'; lia |].
          apply IH'. lia. }
      rewrite Hnone by lia. destruct l; reflexivity.
    + apply Nat.eqb_neq in E. rewrite IH by lia.
      replace (n - s)%nat with (S (n - S s)) by lia. reflexivity.
Qed.

Section GroupOpsFacts.
Context {A G : Type} `{KeyOrderLaws G}.
Variable gk : A -> G.

Lemma cumcount_from_group (g : G) (prev l : list A) :
  filter (fun cr => in_group gk g (snd cr)) (cumcount_from gk prev l) =
  combine (seq (List.length (filter (in_group gk g) prev))
               (List.length (filter (in_group gk g) l)))
          (filter (in_group gk g) l).
Proof.
  revert prev. induction l as [| a t IH]; intros prev; simpl.
  - reflexivity.
  - rewrite IH. simpl. destruct (in_group gk g a) eqn:E; simpl.
    + f_equal. f_equal. f_equal. apply filter_ext_in'. intros b _.
      unfold same_group, in_group in *. apply keqb_eq in E. rewrite E. reflexivity.
    + reflexivity.
Qed.

Lemma cumcount_group (g : G) (l : list A) :
  filter (fun cr => in_group gk g (snd cr)) (cumcount gk l) =
  combine (seq 0 (List.length (filter (in_group gk g) l))) (filter (in_group gk g) l).
Proof. unfold cumcount. rewrite cumcount_from_group. reflexivity. Qed.

(** Within a group, [head n] keeps the first [n] rows. *)
Lemma head_group (g : G) (n : nat) (l : list A) :
  filter (in_group gk g) (head gk n l) = firstn n (filter (in_group gk g) l).
Proof.
  unfold head. rewrite filter_map_comm, filter_filter_comm, cumcount_group.
  rewrite combine_seq_lt, Nat.sub_0_r. reflexivity.
Qed.

(** Within a group, [nth n] keeps the row at position [n], if there is one. *)
Lemma nth_row_group (g : G) (n : nat) (l : list A) :
  filter (in_group gk g) (nth_row gk n l) = firstn 1 (skipn n (filter (in_group gk g) l)).
Proof.
  unfold nth_row. rewrite filter_map_comm, filter_filter_comm, cumcount_group.
  rewrite combine_seq_eq by lia. rewrite Nat.sub_0_r. reflexivity.
Qed.

(** Filtering on a predicate that is constant on groups commutes with the
    group operations. *)
Lemma cumcount_from_filter (p : G -> bool) (prev l : list A) :
  cumcount_from gk (filter (fun a => p (gk a)) prev) (filter (fun a => p (gk a)) l) =
  filter (fun cr => p (gk (snd cr))) (cumcount_from gk prev l).
Proof.
  revert prev. induction l as [| a t IH]; intros prev; simpl.
  - reflexivity.
  - destruct (p (gk a)) eqn:E; simpl.
    + rewrite <- IH. simpl. rewrite E. f_equal. f_equal. f_equal.
      clear IH. induction prev as [| b prev IHp]; simpl; [reflexivity |].
      destruct (same_group gk b a) eqn:Eb.
      * unfold same_group in Eb. apply keqb_eq in Eb. rewrite Eb, E. simpl.
        unfold same_group at 1. rewrite Eb, keqb_refl, IHp. reflexivity.
      * destruct (p (gk b)); simpl; rewrite ?Eb; exact IHp.
    + rewrite <- IH. simpl. rewrite E. reflexivity.
Qed.

Lemma head_filter (p : G -> bool) (n : nat) (l : list A) :
  head gk n (filter (fun a => p (gk a)) l) = filter (fun a => p (gk a)) (head gk n l).
Proof.
  unfold head, cumcount.
  rewrite (cumcount_from_filter p [] l : cumcount_from gk [] _ = _).
  rewrite filter_map_comm, filter_filter_comm. reflexivity.
Qed.

Lemma nth_row_filter (p : G -> bool) (n : nat) (l : list A) :
  nth_row gk n (filter (fun a => p (gk a)) l) = filter (fun a => p (gk a)) (nth_row gk n l).
Proof.
  unfold nth_row, cumcount.
  rewrite (cumcount_from_filter p [] l : cumcount_from gk [] _ = _).
  rewrite filter_map_comm, filter_filter_comm. reflexivity.
Qed.
End GroupOpsFacts.

(* ------------------------------------------------------------------ *)
(** ** The aggregated and ranked table *)

Lemma agg_key_agg_row (e : (string * string * string * string) * Z) :
  agg_key (agg_row e) = fst e.
Proof. destruct e as [[[[p t] n] q] v]. reflexivity. Qed.

Lemma Votes_agg_row (e : (string * string * string * string) * Z) :
  Votes (agg_row e) = snd e.
Proof. destruct e as [[[[p t] n] q] v]. reflexivity. Qed.

Lemma strongly_sorted_map {A B : Type} (R : B -> B -> Prop) (f : A -> B) (l : list A) :
  StronglySorted (fun a b => R (f a) (f b)) l -> StronglySorted R (map f l).
Proof.
  induction 1 as [| a l S IH F]; simpl; constructor; [exact IH |].
  rewrite Forall_map. exact F.
Qed.

Lemma agg_sorted (data : DataFrame) :
  StronglySorted (fun a b => kcmp (agg_key a) (agg_key b) = Lt) (agg data).
Proof.
  unfold agg. apply strongly_sorted_map with (R := fun a b => kcmp (agg_key a) (agg_key b) = Lt).
  pose proof (groupby_sum_sorted agg_key data) as S. unfold keys_sorted in S.
  eapply StronglySorted_ind with (P := fun l => StronglySorted _ l);
    [constructor | | exact S].
  intros e l _ IH F. constructor; [exact IH |].
  eapply Forall_impl; [| exact F]. intros e' He'. simpl.
  rewrite !agg_key_agg_row. exact He'.
Qed.

Lemma by_group_votes_desc_key (a b : Row) :
  by_group_votes_desc a b = kcmp (sort_key a) (sort_key b).
Proof.
  unfold by_group_votes_desc, sort_key. simpl. unfold pair_cmp. simpl.
  unfold pair_cmp. simpl. rewrite Z.compare_opp. reflexivity.
Qed.

Lemma sorted_agg_key (data : DataFrame) :
  sorted_agg data = sort_values (fun a b => kcmp (sort_key a) (sort_key b)) (agg data).
Proof. apply sort_values_ext. apply by_group_votes_desc_key. Qed.

(** The ranked table is in strictly ascending [rank_key] order. *)
Lemma sorted_agg_ranked (data : DataFrame) :
  StronglySorted (fun a b => kcmp (rank_key a) (rank_key b) = Lt) (sorted_agg data).
Proof.
  rewrite sorted_agg_key. unfold rank_key.
  apply (sort_values_stable sort_key agg_key). apply agg_sorted.
Qed.

Lemma sorted_agg_in (r : Row) (data : DataFrame) :
  In r (sorted_agg data) <-> In r (agg data).
Proof. apply sort_values_in. Qed.

Lemma agg_range (data : DataFrame) :
  votes_ok data -> Forall (fun r => 0 <= Votes r <= int64_max) (agg data).
Proof.
  intros [F B]. unfold agg. rewrite Forall_map.
  eapply Forall_impl; [| apply (groupby_sum_range agg_key data F B)].
  intros e He. rewrite Votes_agg_row. exact He.
Qed.

Lemma sorted_agg_range (data : DataFrame) :
  votes_ok data -> Forall (fun r => 0 <= Votes r <= int64_max) (sorted_agg data).
Proof.
  intros V. eapply Permutation_Forall; [symmetry; apply sort_values_perm |].
  apply agg_range. exact V.
Qed.

Lemma ranked_group_sorted (g : string * string) (data : DataFrame) :
  StronglySorted (fun a b => kcmp (rank_key a) (rank_key b) = Lt) (ranked_group g data).
Proof. apply strongly_sorted_filter. apply sorted_agg_ranked. Qed.

Lemma ranked_group_grp (g : string * string) (data : DataFrame) :
  Forall (fun r => grp r = g) (ranked_group g data).
Proof.
  apply Forall_forall. intros r Hr. apply filter_In in Hr. destruct Hr as [_ Hr].
  apply keqb_eq in Hr. exact Hr.
Qed.

Lemma ranked_group_range (g : string * string) (data : DataFrame) :
  votes_ok data -> Forall (fun r => 0 <= Votes r <= int64_max) (ranked_group g data).
Proof. intros V. apply Forall_filter_keep. apply sorted_agg_range. exact V. Qed.

(** Two rows of one group in ranking order: more votes first, and on equal
    votes the smaller (name, party) first. *)
Lemma rank_key_same_group (a b : Row) :
  grp a = grp b -> kcmp (rank_key a) (rank_key b) = Lt ->
  Votes b < Votes a \/
  (Votes b = Votes a /\ kcmp (Name a, Party a) (Name b, Party b) = Lt).
Proof.
  unfold grp. intros E. inversion E as [[EP EE]].
  assert (forall s, String_as_OT.compare s s = Eq) as Rf
    by (intros s; apply string_cmp_eq; reflexivity).
  unfold rank_key, sort_key, agg_key. simpl. unfold pair_cmp. simpl.
  unfold pair_cmp. simpl. unfold pair_cmp. simpl. unfold pair_cmp. simpl.
  rewrite EP, EE, !Rf. simpl.
  rewrite Z.compare_opp.
  destruct (Z.compare (Votes b) (Votes a)) eqn:C; simpl.
  - apply Z.compare_eq_iff in C. intros L. right. split; [exact C | exact L].
  - apply Z.compare_lt_iff in C. intros _. left. exact C.
  - discriminate.
Qed.

Lemma ranked_group_top_two (g : string * string) (data : DataFrame) (w r : Row)
    (rest : list Row) :
  ranked_group g data = w :: r :: rest ->
  grp w = g /\ grp r = g /\
  (Votes r < Votes w \/
   (Votes r = Votes w /\ kcmp (Name w, Party w) (Name r, Party r) = Lt)).
Proof.
  intros E. pose proof (ranked_group_sorted g data) as S.
  pose proof (ranked_group_grp g data) as Gr. rewrite E in S, Gr.
  inversion Gr as [| ? ? Gw Gr']; subst. inversion Gr' as [| ? ? Grr _]; subst.
  split; [reflexivity |]. split; [exact Grr |].
  inversion S as [| ? ? _ F]; subst. inversion F as [| ? ? Hwr _]; subst.
  apply rank_key_same_group; [congruence | exact Hwr].
Qed.

(* ------------------------------------------------------------------ *)
(** ** get_margin_analysis, group by group *)

Lemma m_grp_margin_row (w r : Row) : App.m_grp (App.margin_row w r) = grp w.
Proof. reflexivity. Qed.

Lemma filter_all {A : Type} (f : A -> bool) (l : list A) :
  (forall a, In a l -> f a = true) -> filter f l = l.
Proof.
  induction l as [| a l IH]; simpl; intros E; [reflexivity |].
  rewrite (E a (or_introl eq_refl)), IH; [reflexivity |].
  intros b Hb. apply E. right. exact Hb.
Qed.

Lemma filter_none {A : Type} (f : A -> bool) (l : list A) :
  (forall a, In a l -> f a = false) -> filter f l = [].
Proof.
  induction l as [| a l IH]; simpl; intros E; [reflexivity |].
  rewrite (E a (or_introl eq_refl)), IH; [reflexivity |].
  intros b Hb. apply E. right. exact Hb.
Qed.

Lemma merge_group (g : string * string) (ws rs : DataFrame) :
  filter (fun m => keqb (App.m_grp m) g) (App.merge ws rs) =
  App.merge (filter (in_group grp g) ws) (filter (in_group grp g) rs).
Proof.
  unfold App.merge. induction ws as [| w ws IH]; simpl; [reflexivity |].
  rewrite filter_app, IH, filter_map_comm. clear IH.
  destruct (in_group grp g w) eqn:E; simpl.
  - f_equal. unfold in_group in E. apply keqb_eq in E. f_equal.
    rewrite filter_all.
    + rewrite filter_filter_comm. symmetry. apply filter_all.
      intros r Hr. apply filter_In in Hr. destruct Hr as [_ Hr].
      unfold same_group in Hr. apply keqb_eq in Hr.
      unfold in_group. rewrite Hr, E. apply keqb_refl.
    + intros r _. rewrite m_grp_margin_row, E. apply keqb_refl.
  - rewrite filter_none; [reflexivity |].
    intros r _. rewrite m_grp_margin_row. exact E.
Qed.

(** The rows that [get_margin_analysis] returns for a group: one row, built
    from the first and second ranked rows, when the group has at least two
    ranked rows; none otherwise. *)
Lemma app_margin_group (g : string * string) (data : DataFrame) :
  filter (fun m => keqb (App.m_grp m) g) (App.get_margin_analysis data) =
  match ranked_group g data with
  | w :: r :: _ => [App.margin_row w r]
  | _ => []
  end.
Proof.
  unfold App.get_margin_analysis, App.winners, App.runners.
  rewrite merge_group, head_group, nth_row_group.
  fold (ranked_group g data).
  pose proof (ranked_group_grp g data) as Gr.
  destruct (ranked_group g data) as [| w [| r rest]]; simpl; try reflexivity.
  inversion Gr as [| ? ? Gw Gr']; subst. inversion Gr' as [| ? ? Grr _]; subst.
  unfold same_group. rewrite Grr, keqb_refl. reflexivity.
Qed.

(* ------------------------------------------------------------------ *)
(** ** sorted_unique, unique, isin *)

Section UniqueFacts.
Context {K : Type} `{KeyOrderLaws K}.

Lemma set_insert_in (k x : K) (s : list K) :
  In x (set_insert k s) <-> x = k \/ In x s.
Proof.
  induction s as [| k' t IH]; simpl.
  - intuition.
  - destruct (kcmp k k') eqn:E; simpl.
    + apply kcmp_eq in E. subst. intuition.
    + intuition.
    + rewrite IH. intuition.
Qed.

Lemma set_insert_sorted (k : K) (s : list K) :
  StronglySorted (fun a b => kcmp a b = Lt) s ->
  StronglySorted (fun a b => kcmp a b = Lt) (set_insert k s).
Proof.
  induction 1 as [| k' t S IH F]; simpl.
  - constructor; constructor.
  - destruct (kcmp k k') eqn:E.
    + constructor; assumption.
    + constructor; [constructor; assumption |].
      constructor; [exact E |].
      eapply Forall_impl; [| exact F]. intros z Hz. eapply kcmp_trans; eassumption.
    + constructor; [exact IH |].
      apply Forall_forall. intros z Hz. apply set_insert_in in Hz.
      destruct Hz as [-> | Hz].
      * apply kcmp_gt_lt. exact E.
      * rewrite Forall_forall in F. apply F. exact Hz.
Qed.

Lemma sorted_unique_fold (l s : list K) :
  StronglySorted (fun a b => kcmp a b = Lt) s ->
  StronglySorted (fun a b => kcmp a b = Lt) (fold_left (fun s k => set_insert k s) l s) /\
  (forall x, In x (fold_left (fun s k => set_insert k s) l s) <-> In x l \/ In x s).
Proof.
  revert s. induction l as [| k l IH]; simpl; intros s S.
  - split; [exact S | intuition].
  - destruct (IH (set_insert k s) (set_insert_sorted k s S)) as [S' E'].
    split; [exact S' |]. intros x. rewrite E', set_insert_in. intuition.
Qed.

Lemma sorted_unique_sorted (l : list K) :
  StronglySorted (fun a b => kcmp a b = Lt) (sorted_unique l).
Proof. apply sorted_unique_fold. constructor. Qed.

Lemma sorted_unique_in (x : K) (l : list K) : In x (sorted_unique l) <-> In x l.
Proof.
  unfold sorted_unique.
  destruct (sorted_unique_fold l [] ltac:(constructor)) as [_ E].
  rewrite E. simpl. intuition.
Qed.

(** A strictly ascending list is determined by its elements. *)
Lemma sorted_unique_eq (l s : list K) :
  StronglySorted (fun a b => kcmp a b = Lt) s ->
  (forall x, In x l <-> In x s) -> sorted_unique l = s.
Proof.
  intros S E.
  apply (strongly_sorted_ext (fun a b : K => kcmp a b = Lt)).
  - intros a. apply kcmp_lt_irrefl.
  - intros a b c. apply kcmp_trans.
  - apply sorted_unique_sorted.
  - exact S.
  - intros x. rewrite sorted_unique_in. apply E.
Qed.

Lemma sorted_filter_one (g : K) (s : list K) :
  StronglySorted (fun a b => kcmp a b = Lt) s -> In g s ->
  filter (fun x => keqb x g) s = [g].
Proof.
  induction 1 as [| k t S IH F]; simpl; intros Hin; [contradiction |].
  rewrite Forall_forall in F.
  destruct (keqb k g) eqn:E.
  - apply keqb_eq in E. subst k. f_equal. apply filter_none.
    intros x Hx. apply keqb_neq. intros ->.
    exact (kcmp_lt_irrefl g (F g Hx)).
  - destruct Hin as [-> | Hin]; [rewrite keqb_refl in E; discriminate |].
    apply IH. exact Hin.
Qed.

Lemma isin_In (k : K) (values : list K) : isin k values = true <-> In k values.
Proof.
  unfold isin. rewrite existsb_exists. split.
  - intros [x [Hx E]]. apply keqb_eq in E. subst. exact Hx.
  - intros Hk. exists k. split; [exact Hk | apply keqb_refl].
Qed.

Lemma unique_from_in (x : K) (seen l : list K) :
  In x (unique_from seen l) <-> In x l /\ ~ In x seen.
Proof.
  revert seen. induction l as [| k t IH]; intros seen; simpl.
  - intuition.
  - destruct (existsb (keqb k) seen) eqn:E.
    + apply (isin_In k seen) in E. rewrite IH. split.
      * intuition.
      * intros [[-> | Hx] Hn]; [contradiction | intuition].
    + assert (~ In k seen) as Hk.
      { intros Hk. apply (isin_In k seen) in Hk. unfold isin in Hk. congruence. }
      simpl. rewrite IH. simpl. split.
      * intros [-> | [Hx Hn]]; [intuition |]. intuition.
      * intros [[-> | Hx] Hn]; [left; reflexivity |].
        destruct (keqb k x) eqn:Ex.
        -- apply keqb_eq in Ex. left. exact Ex.
        -- apply keqb_neq in Ex. right. intuition.
Qed.

Lemma unique_in (x : K) (l : list K) : In x (unique l) <-> In x l.
Proof. unfold unique. rewrite unique_from_in. simpl. intuition. Qed.

Lemma unique_nil (l : list K) : unique l = [] <-> l = [].
Proof.
  split; [| intros ->; reflexivity].
  destruct l as [| k t]; [reflexivity |]. unfold unique. simpl. discriminate.
Qed.
End UniqueFacts.

(* ------------------------------------------------------------------ *)
(** ** The pivot of v2app.py, group by group *)

Lemma mapM_ok {A B : Type} (f : A -> result B) (h : A -> B) (l : list A) :
  (forall x, In x l -> f x = Ok (h x)) -> mapM f l = Ok (map h l).
Proof.
  induction l as [| a l IH]; simpl; intros E; [reflexivity |].
  rewrite (E a (or_introl eq_refl)). simpl. rewrite IH; [reflexivity |].
  intros x Hx. apply E. right. exact Hx.
Qed.

Lemma filter_andb {A : Type} (f g : A -> bool) (l : list A) :
  filter (fun x => f x && g x) l = filter g (filter f l).
Proof.
  induction l as [| a l IH]; simpl; [reflexivity |].
  destruct (f a); simpl; [destruct (g a) |]; rewrite IH; reflexivity.
Qed.

Lemma ranked_rows (g : string * string) (data : DataFrame) :
  filter (fun cr => in_group grp g (snd cr)) (V2.ranked data) =
  match ranked_group g data with
  | [] => []
  | [w] => [(1%nat, w)]
  | w :: r :: _ => [(1%nat, w); (2%nat, r)]
  end.
Proof.
  unfold V2.ranked. rewrite filter_map_comm. cbn [snd].
  rewrite cumcount_group. unfold V2.top_2. rewrite head_group.
  fold (ranked_group g data).
  destruct (ranked_group g data) as [| w [| r rest]]; reflexivity.
Qed.

Lemma cells_group (frame : list (nat * Row)) (g : string * string) (k : nat) :
  V2.cells frame g k =
  filter (fun cr => Nat.eqb (fst cr) k) (filter (fun cr => in_group grp g (snd cr)) frame).
Proof. unfold V2.cells. rewrite <- filter_andb. reflexivity. Qed.

Lemma ranked_rank (data : DataFrame) (k : nat) (a : Row) :
  In (k, a) (V2.ranked data) -> k = 1%nat \/ k = 2%nat.
Proof.
  intros Hin.
  assert (In (k, a) (filter (fun cr => in_group grp (grp a) (snd cr)) (V2.ranked data))) as Hf.
  { apply filter_In. split; [exact Hin |]. apply keqb_refl. }
  rewrite ranked_rows in Hf.
  destruct (ranked_group (grp a) data) as [| w [| r rest]]; simpl in Hf.
  - contradiction.
  - destruct Hf as [Hf | []]. inversion Hf. left. reflexivity.
  - destruct Hf as [Hf | [Hf | []]]; inversion Hf; [left | right]; reflexivity.
Qed.

Lemma pivot_columns_two (data : DataFrame) (g : string * string) (w r : Row)
    (rest : list Row) :
  ranked_group g data = w :: r :: rest ->
  V2.pivot_columns (V2.ranked data) = [1%nat; 2%nat].
Proof.
  intros E. unfold V2.pivot_columns. apply sorted_unique_eq.
  - constructor; [constructor; constructor |].
    constructor; [reflexivity | constructor].
  - pose proof (ranked_rows g data) as Hr. rewrite E in Hr.
    assert (In (1%nat, w) (V2.ranked data) /\ In (2%nat, r) (V2.ranked data)) as [H1 H2].
    { split; eapply (proj1 (filter_In _ _ _)); rewrite Hr; simpl; auto. }
    intros x. rewrite in_map_iff. split.
    + intros [[k a] [Hk Hin]]. simpl in Hk. subst k.
      destruct (ranked_rank data x a Hin) as [-> | ->]; simpl; auto.
    + intros [<- | [<- | []]]; [exists (1%nat, w) | exists (2%nat, r)]; auto.
Qed.

Lemma pivot_index_in (data : DataFrame) (g : string * string) :
  In g (V2.pivot_index (V2.ranked data)) <-> ranked_group g data <> [].
Proof.
  unfold V2.pivot_index. rewrite sorted_unique_in, in_map_iff.
  pose proof (ranked_rows g data) as Hr. split.
  - intros [[k a] [Hk Hin]]. simpl in Hk. intros E. rewrite E in Hr.
    assert (In (k, a) (filter (fun cr => in_group grp g (snd cr)) (V2.ranked data))) as Hf.
    { apply filter_In. split; [exact Hin |]. apply keqb_eq. exact Hk. }
    rewrite Hr in Hf. exact Hf.
  - intros Hne. destruct (ranked_group g data) as [| w rest] eqn:E; [congruence |].
    pose proof (ranked_group_grp g data) as Gr. rewrite E in Gr.
    inversion Gr as [| ? ? Gw _]; subst.
    exists (1%nat, w). split; [reflexivity |].
    eapply (proj1 (filter_In _ _ _)). rewrite Hr. destruct rest; simpl; auto.
Qed.

Lemma reshapable_ranked (data : DataFrame) : V2.reshapable (V2.ranked data) = true.
Proof.
  unfold V2.reshapable. apply forallb_forall. intros g _.
  apply forallb_forall. intros k _. apply Nat.leb_le.
  rewrite cells_group, ranked_rows.
  destruct (ranked_group g data) as [| w [| r rest]];
    destruct k as [| [| [| k]]]; simpl; lia.
Qed.

Lemma pivot_row_ranked (data : DataFrame) (g : string * string) :
  votes_ok data -> ranked_group g data <> [] ->
  V2.pivot_row (V2.ranked data) 1 2 g = Ok (V2.pivot_row_of g (ranked_group g data)).
Proof.
  intros V Hne. unfold V2.pivot_row, V2.cell. rewrite !cells_group, ranked_rows.
  pose proof (ranked_group_range g data V) as Rg.
  unfold V2.pivot_row_of.
  destruct (ranked_group g data) as [| w [| r rest]]; [congruence | |]; simpl.
  - inversion Rg as [| ? ? Hw _]; subst.
    unfold astype_int. rewrite (proj2 (in_int64_true (Votes w - 0)))
      by (unfold int64_min, int64_max in *; lia).
    simpl. rewrite Z.sub_0_r. reflexivity.
  - inversion Rg as [| ? ? Hw Rg']; subst. inversion Rg' as [| ? ? Hr _]; subst.
    unfold astype_int. rewrite (proj2 (in_int64_true (Votes w - Votes r)))
      by (unfold int64_min, int64_max in *; lia).
    reflexivity.
Qed.

(** With the votes in range and some contested group, the pivot succeeds
    and has one row per group, in ascending group order. *)
Lemma pivot_margin_ok (data : DataFrame) (g0 : string * string) (w0 r0 : Row)
    (rest0 : list Row) :
  votes_ok data -> ranked_group g0 data = w0 :: r0 :: rest0 ->
  V2.pivot_margin data =
  Ok (map (fun g => V2.pivot_row_of g (ranked_group g data))
          (V2.pivot_index (V2.ranked data))).
Proof.
  intros V E0. unfold V2.pivot_margin.
  rewrite reshapable_ranked, (pivot_columns_two data g0 w0 r0 rest0 E0).
  apply mapM_ok. intros g Hg. apply pivot_row_ranked; [exact V |].
  apply pivot_index_in. exact Hg.
Qed.

Lemma p_grp_pivot_row_of (g : string * string) (rows : list Row) :
  V2.p_grp (V2.pivot_row_of g rows) = g.
Proof. destruct g. reflexivity. Qed.

Lemma pivot_margin_group (data : DataFrame) (g0 g : string * string) (w0 r0 : Row)
    (rest0 : list Row) :
  votes_ok data -> ranked_group g0 data = w0 :: r0 :: rest0 ->
  ranked_group g data <> [] ->
  exists rows,
    V2.pivot_margin data = Ok rows /\
    filter (fun p => keqb (V2.p_grp p) g) rows = [V2.pivot_row_of g (ranked_group g data)].
Proof.
  intros V E0 Hne. eexists. split; [eapply pivot_margin_ok; eassumption |].
  rewrite filter_map_comm.
  rewrite (filter_ext_in' _ (fun x => keqb x g)).
  - rewrite sorted_filter_one; [reflexivity | apply sorted_unique_sorted |].
    apply pivot_index_in. exact Hne.
  - intros x _. rewrite p_grp_pivot_row_of. reflexivity.
Qed.

(* ------------------------------------------------------------------ *)
(** ** Selecting units commutes with the margin analysis *)

Section UnitFilter.
Variable p : string -> bool.

Lemma agg_unit_filter (data : DataFrame) :
  agg (filter (fun r => p (Prabhag r)) data) = filter (fun r => p (Prabhag r)) (agg data).
Proof.
  unfold agg.
  rewrite (groupby_sum_filter agg_key (fun k => p (fst (fst (fst k)))) data).
  rewrite filter_map_comm. f_equal. apply filter_ext_in'.
  intros [[[[u t] n] q] v] _. reflexivity.
Qed.

Lemma sorted_agg_unit_filter (data : DataFrame) :
  sorted_agg (filter (fun r => p (Prabhag r)) data) =
  filter (fun r => p (Prabhag r)) (sorted_agg data).
Proof.
  apply (strongly_sorted_ext (fun a b => kcmp (rank_key a) (rank_key b) = Lt)).
  - intros a. apply kcmp_lt_irrefl.
  - intros a b c. apply kcmp_trans.
  - apply sorted_agg_ranked.
  - apply strongly_sorted_filter. apply sorted_agg_ranked.
  - intros x. rewrite sorted_agg_in, agg_unit_filter, !filter_In, sorted_agg_in.
    reflexivity.
Qed.

Lemma merge_unit_filter (ws rs : DataFrame) :
  filter (fun m => p (App.m_Prabhag m)) (App.merge ws rs) =
  App.merge (filter (fun r => p (Prabhag r)) ws) (filter (fun r => p (Prabhag r)) rs).
Proof.
  unfold App.merge. induction ws as [| w ws IH]; simpl; [reflexivity |].
  rewrite filter_app, IH, filter_map_comm. clear IH.
  destruct (p (Prabhag w)) eqn:E; simpl.
  - f_equal. f_equal. rewrite filter_all by (intros r _; exact E).
    rewrite filter_filter_comm. symmetry. apply filter_all.
    intros r Hr. apply filter_In in Hr. destruct Hr as [_ Hr].
    unfold same_group in Hr. apply keqb_eq in Hr.
    unfold grp in Hr. inversion Hr as [[EP EE]]. rewrite EP. exact E.
  - rewrite filter_none by (intros r _; exact E). reflexivity.
Qed.

Lemma get_margin_analysis_unit_filter (data : DataFrame) :
  App.get_margin_analysis (filter (fun r => p (Prabhag r)) data) =
  filter (fun m => p (App.m_Prabhag m)) (App.get_margin_analysis data).
Proof.
  unfold App.get_margin_analysis, App.winners, App.runners.
  rewrite merge_unit_filter, sorted_agg_unit_filter.
  rewrite (head_filter grp (fun g => p (fst g)) 1 (sorted_agg data)).
  rewrite (nth_row_filter grp (fun g => p (fst g)) 1 (sorted_agg data)).
  reflexivity.
Qed.
End UnitFilter.

(* ------------------------------------------------------------------ *)
(** ** sorted with natural_sort_key *)

Section SortedFacts.
Context {A : Type}.
Variable key : A -> pykey.

Lemma py_lt_same (a b : pykey) : is_int a = is_int b -> exists c, py_lt a b = Ok c.
Proof. destruct a, b; simpl; intros E; try discriminate; eexists; reflexivity. Qed.

Lemma py_lt_mixed (a b : pykey) : is_int a <> is_int b -> py_lt a b = Raise TypeError.
Proof. destruct a, b; simpl; intros E; congruence. Qed.

Lemma py_insert_same (x : A) (s : list A) :
  Forall (fun y => is_int (key y) = is_int (key x)) s ->
  exists s', py_insert key x s = Ok s' /\ Permutation s' (x :: s).
Proof.
  induction 1 as [| y t Hy F IH]; simpl.
  - eexists. split; reflexivity.
  - destruct (py_lt_same (key x) (key y) (eq_sym Hy)) as [c ->]. simpl.
    destruct c.
    + eexists. split; reflexivity.
    + destruct IH as [t' [-> P]]. simpl. eexists. split; [reflexivity |].
      rewrite P. apply perm_swap.
Qed.

Lemma py_insert_mixed (x y : A) (t : list A) :
  is_int (key x) <> is_int (key y) -> py_insert key x (y :: t) = Raise TypeError.
Proof. intros E. simpl. rewrite (py_lt_mixed _ _ E). reflexivity. Qed.

Lemma sorted_fold_raise (l : list A) (e : exn) :
  fold_left (fun acc x => s <- acc ;; py_insert key x s) l (Raise e) = Raise e.
Proof. induction l as [| x t IH]; simpl; [reflexivity | exact IH]. Qed.

Lemma sorted_fold_same (c : bool) (l s : list A) :
  Forall (fun y => is_int (key y) = c) s ->
  Forall (fun y => is_int (key y) = c) l ->
  exists s', fold_left (fun acc x => s <- acc ;; py_insert key x s) l (Ok s) = Ok s' /\
             Permutation s' (s ++ l).
Proof.
  revert s. induction l as [| x t IH]; simpl; intros s Fs Fl.
  - exists s. rewrite app_nil_r. split; reflexivity.
  - inversion Fl as [| ? ? Hx Ft]; subst.
    destruct (py_insert_same x s) as [s1 [E1 P1]].
    { eapply Forall_impl; [| exact Fs]. intros y Hy. simpl in Hy. congruence. }
    rewrite E1.
    destruct (IH s1) as [s' [E' P']].
    { eapply Permutation_Forall; [symmetry; exact P1 |]. constructor; [reflexivity | exact Fs]. }
    { exact Ft. }
    exists s'. split; [exact E' |].
    rewrite P', P1. simpl. apply Permutation_middle.
Qed.

Lemma sorted_fold_mixed (c : bool) (l s : list A) :
  s <> [] ->
  Forall (fun y => is_int (key y) = c) s ->
  ~ Forall (fun y => is_int (key y) = c) l ->
  fold_left (fun acc x => s <- acc ;; py_insert key x s) l (Ok s) = Raise TypeError.
Proof.
  revert s. induction l as [| x t IH]; simpl; intros s Hne Fs Fl.
  - exfalso. apply Fl. constructor.
  - destruct (Bool.bool_dec (is_int (key x)) c) as [Hx | Hx].
    + destruct (py_insert_same x s) as [s1 [E1 P1]].
      { eapply Forall_impl; [| exact Fs]. intros y Hy. simpl in Hy. congruence. }
      rewrite E1. apply IH.
      * intros ->. apply Permutation_nil in P1. discriminate.
      * eapply Permutation_Forall; [symmetry; exact P1 |]. constructor; assumption.
      * intros Ft. apply Fl. constructor; assumption.
    + destruct s as [| y s0]; [congruence |].
      inversion Fs as [| ? ? Hy _]; subst.
      rewrite py_insert_mixed by congruence.
      apply sorted_fold_raise.
Qed.

(** Keys of one type sort; the result is a rearrangement of the input. *)
Lemma sorted_same (c : bool) (l : list A) :
  Forall (fun y => is_int (key y) = c) l ->
  exists s, sorted key l = Ok s /\ Permutation s l.
Proof.
  intros F. destruct (sorted_fold_same c l [] ltac:(constructor) F) as [s [E P]].
  exists s. split; assumption.
Qed.

(** Keys of both types in one list: [sorted] raises TypeError. *)
Lemma sorted_mixed (l : list A) (a b : A) :
  In a l -> In b l -> is_int (key a) <> is_int (key b) ->
  sorted key l = Raise TypeError.
Proof.
  intros Ha Hb Hab. destruct l as [| x t]; [contradiction |].
  unfold sorted. simpl.
  apply (sorted_fold_mixed (is_int (key x))).
  - discriminate.
  - constructor; [reflexivity | constructor].
  - intros Ft. rewrite Forall_forall in Ft.
    assert (forall y, In y (x :: t) -> is_int (key y) = is_int (key x)) as Hall.
    { intros y [<- | Hy]; [reflexivity | apply Ft; exact Hy]. }
    apply Hab. rewrite (Hall a Ha), (Hall b Hb). reflexivity.
Qed.

Lemma sorted_ok_perm (l s : list A) : sorted key l = Ok s -> Permutation s l.
Proof.
  intros E. destruct l as [| x t].
  - unfold sorted in E. simpl in E. inversion E. reflexivity.
  - destruct (Forall_dec (fun y => is_int (key y) = is_int (key x))
                (fun y => Bool.bool_dec _ _) (x :: t)) as [F | F].
    + destruct (sorted_same _ _ F) as [s' [E' P']]. congruence.
    + exfalso. apply F. apply Forall_forall. intros y Hy.
      destruct (Bool.bool_dec (is_int (key y)) (is_int (key x))) as [Hyx | Hyx];
        [exact Hyx |].
      rewrite (sorted_mixed (x :: t) y x Hy (or_introl eq_refl) Hyx) in E.
      discriminate.
Qed.

Lemma sorted_raises_TypeError (l : list A) (e : exn) :
  sorted key l = Raise e -> e = TypeError.
Proof.
  intros E. destruct l as [| x t].
  - unfold sorted in E. simpl in E. discriminate.
  - destruct (Forall_dec (fun y => is_int (key y) = is_int (key x))
                (fun y => Bool.bool_dec _ _) (x :: t)) as [F | F].
    + destruct (sorted_same _ _ F) as [s' [E' P']]. congruence.
    + assert (sorted key (x :: t) = Raise TypeError) as E'; [| congruence].
      apply (sorted_fold_mixed (is_int (key x)) t [x]).
      * discriminate.
      * constructor; [reflexivity | constructor].
      * intros Ft. apply F. constructor; [reflexivity | exact Ft].
Qed.
End SortedFacts.

Lemma sorted_str_ok {A : Type} (f : A -> string) (l : list A) :
  exists s, sorted (fun x => KStr (f x)) l = Ok s /\ Permutation s l.
Proof.
  apply (sorted_same _ false). apply Forall_forall. intros y _. reflexivity.
Qed.

(* ------------------------------------------------------------------ *)
(** ** str.strip *)

Lemma space_prefix_shorter (s r : string) :
  space_prefix s = Some r -> (String.length r < String.length s)%nat.
Proof.
  destruct s as [| c1 [| c2 [| c3 t3]]]; simpl; try discriminate.
  - destruct (space1 c1); [| discriminate].
    intros E. injection E as <-. simpl. lia.
  - destruct (space1 c1); [intros E; injection E as <-; simpl; lia |].
    destruct (space2 c1 c2); [| discriminate].
    intros E. injection E as <-. simpl. lia.
  - destruct (space1 c1); [intros E; injection E as <-; simpl; lia |].
    destruct (space2 c1 c2); [intros E; injection E as <-; simpl; lia |].
    destruct (space3 c1 c2 c3); [| discriminate].
    intros E. injection E as <-. simpl. lia.
Qed.

Lemma space_prefix_app (r x v : string) :
  space_prefix r = Some x -> space_prefix (r ++ v) = Some (x ++ v).
Proof.
  destruct r as [| c1 [| c2 [| c3 t3]]]; simpl; try discriminate.
  - destruct (space1 c1); [| discriminate].
    intros E. injection E as <-. reflexivity.
  - destruct (space1 c1); [intros E; injection E as <-; reflexivity |].
    destruct (space2 c1 c2); [| discriminate].
    intros E. injection E as <-. reflexivity.
  - destruct (space1 c1); [intros E; injection E as <-; reflexivity |].
    destruct (space2 c1 c2); [intros E; injection E as <-; reflexivity |].
    destruct (space3 c1 c2 c3); [| discriminate].
    intros E. injection E as <-. reflexivity.
Qed.

Lemma lstrip_unfold (s : string) :
  lstrip s = match space_prefix s with
             | Some r => lstrip r
             | None => s
             end.
Proof.
  destruct s as [| c1 [| c2 [| c3 t3]]]; simpl; try reflexivity.
  - destruct (space1 c1); reflexivity.
  - destruct (space1 c1); [reflexivity |]. destruct (space2 c1 c2); reflexivity.
  - destruct (space1 c1); [reflexivity |]. destruct (space2 c1 c2); [reflexivity |].
    destruct (space3 c1 c2 c3); reflexivity.
Qed.

Lemma all_space_unfold (s : string) :
  all_space s = match s with
                | EmptyString => true
                | _ => match space_prefix s with
                       | Some r => all_space r
                       | None => false
                       end
                end.
Proof.
  destruct s as [| c1 [| c2 [| c3 t3]]]; simpl; try reflexivity.
  - destruct (space1 c1); reflexivity.
  - destruct (space1 c1); [reflexivity |]. destruct (space2 c1 c2); reflexivity.
  - destruct (space1 c1); [reflexivity |]. destruct (space2 c1 c2); [reflexivity |].
    destruct (space3 c1 c2 c3); reflexivity.
Qed.

Lemma space_prefix_nonempty (s r : string) : space_prefix s = Some r -> s <> EmptyString.
Proof. intros E ->. discriminate. Qed.

(** Induction along [lstrip]: on the text behind a leading white-space
    character. *)
Lemma space_prefix_ind (Q : string -> Prop) :
  (forall s, (forall r, space_prefix s = Some r -> Q r) -> Q s) -> forall s, Q s.
Proof.
  intros step s.
  assert (forall n s, (String.length s < n)%nat -> Q s) as H.
  { induction n as [| n IH]; intros s' Hl; [lia |].
    apply step. intros r Hr. apply IH.
    pose proof (space_prefix_shorter s' r Hr). lia. }
  apply (H (S (String.length s))). lia.
Qed.

Lemma lstrip_empty (s : string) : lstrip s = EmptyString <-> all_space s = true.
Proof.
  induction s as [s IH] using space_prefix_ind.
  rewrite lstrip_unfold, all_space_unfold.
  destruct (space_prefix s) as [r |] eqn:E.
  - pose proof (space_prefix_nonempty s r E) as Hn.
    destruct s; [contradiction |]. apply IH. reflexivity.
  - destruct s; [split; reflexivity |]. split; discriminate.
Qed.

(** What [lstrip] leaves does not start with white space. *)
Lemma lstrip_head (s : string) :
  lstrip s = EmptyString \/
  (lstrip s <> EmptyString /\ space_prefix (lstrip s) = None).
Proof.
  induction s as [s IH] using space_prefix_ind.
  rewrite lstrip_unfold.
  destruct (space_prefix s) as [r |] eqn:E.
  - apply IH. reflexivity.
  - destruct s; [left; reflexivity |]. right. split; [discriminate | exact E].
Qed.

(** [rstrip] cuts a suffix off. *)
Lemma rstrip_prefix (s : string) : exists v, s = (rstrip s ++ v)%string.
Proof.
  induction s as [| c t [v IH]]; simpl.
  - exists EmptyString. reflexivity.
  - destruct (is_space (String c (rstrip t))).
    + exists (String c t). reflexivity.
    + exists v. simpl. rewrite <- IH. reflexivity.
Qed.

Lemma is_space_prefix (r : string) : is_space r = true -> space_prefix r = Some EmptyString.
Proof.
  unfold is_space. destruct (space_prefix r) as [[| c t] |]; try discriminate. reflexivity.
Qed.

(** Text that does not start with white space keeps its start under
    [rstrip]. *)
Lemma rstrip_keeps_head (u : string) :
  space_prefix u = None ->
  space_prefix (rstrip u) = None /\ (u <> EmptyString -> rstrip u <> EmptyString).
Proof.
  intros Hu. destruct (rstrip_prefix u) as [v Hv]. split.
  - destruct (space_prefix (rstrip u)) as [x |] eqn:E; [| reflexivity].
    apply (space_prefix_app _ _ v) in E. rewrite <- Hv in E. congruence.
  - destruct u as [| c t]; [intros H; contradiction H; reflexivity |].
    intros _. simpl.
    destruct (is_space (String c (rstrip t))) eqn:Es; [| discriminate].
    apply is_space_prefix in Es.
    destruct (rstrip_prefix t) as [v' Hv'].
    apply (space_prefix_app _ _ v') in Es.
    assert ((String c (rstrip t) ++ v')%string = String c t) as Ev
      by (cbn [append]; rewrite <- Hv'; reflexivity).
    rewrite Ev in Es. congruence.
Qed.

Lemma strip_empty (s : string) : strip s = EmptyString <-> all_space s = true.
Proof.
  unfold strip. rewrite <- lstrip_empty.
  destruct (lstrip_head s) as [E | [Hn Hp]].
  - rewrite E. split; reflexivity.
  - split; [| intros E; contradiction].
    intros E. destruct (rstrip_keeps_head _ Hp) as [_ Hk].
    exfalso. apply (Hk Hn). exact E.
Qed.

Lemma rstrip_idem (s : string) : rstrip (rstrip s) = rstrip s.
Proof.
  induction s as [| c t IH]; [reflexivity |]. simpl.
  destruct (is_space (String c (rstrip t))) eqn:Es; [reflexivity |].
  simpl. rewrite IH, Es. reflexivity.
Qed.

Lemma lstrip_strip (s : string) : lstrip (strip s) = strip s.
Proof.
  unfold strip. destruct (lstrip_head s) as [E | [Hn Hp]].
  - rewrite E. reflexivity.
  - destruct (rstrip_keeps_head _ Hp) as [Hk _].
    rewrite lstrip_unfold, Hk. reflexivity.
Qed.

Lemma strip_idem (s : string) : strip (strip s) = strip s.
Proof.
  unfold strip at 1. rewrite lstrip_strip. unfold strip. apply rstrip_idem.
Qed.

(** A no-break space (C2 A0) in front and an ideographic space (E3 80 80)
    behind are stripped like blanks, and a cell that holds a no-break
    space alone is loaded as the empty string. *)
Example strip_unicode_space :
  let nbsp := String (ascii_of_nat 194) (String (ascii_of_nat 160) EmptyString) in
  let ideo := String (ascii_of_nat 227)
                (String (ascii_of_nat 128) (String (ascii_of_nat 128) EmptyString)) in
  strip (nbsp ++ " BJP" ++ ideo ++ " ") = "BJP" /\
  all_space (nbsp ++ ideo) = true /\
  load_party (read_csv_cell nbsp) = "".
Proof. repeat split; vm_compute; reflexivity. Qed.

(* ================================================================== *)
(** * The claims *)

Lemma strongly_sorted_impl_in {A : Type} (R R' : A -> A -> Prop) (l : list A) :
  StronglySorted R l ->
  (forall a b, In a l -> In b l -> R a b -> R' a b) ->
  StronglySorted R' l.
Proof.
  induction 1 as [| a l S IH F]; intros HR; constructor.
  - apply IH. intros x y Hx Hy. apply HR; right; assumption.
  - rewrite Forall_forall in *. intros y Hy.
    apply HR; [left; reflexivity | right; exact Hy | apply F; exact Hy].
Qed.

(** C1 (as amended).  Within every (unit, category) group the ranking that
    determines winner and runner-up lists the candidates by total votes,
    highest first, and candidates with equal totals in the order of the
    aggregated table, that is by ascending (name, party); the margin row of
    the group is built from the first two ranked rows.  For the rows
    (A, PartyX, 120), (B, PartyY, 95), (C, PartyX, 95) the runner-up is B
    and the margin is 25, in app.py and in v2app.py. *)
Theorem ranking_tie_break (data : DataFrame) (g : string * string) :
  StronglySorted
    (fun a b => Votes b < Votes a \/
                (Votes b = Votes a /\ kcmp (Name a, Party a) (Name b, Party b) = Lt))
    (ranked_group g data) /\
  filter (fun m => keqb (App.m_grp m) g) (App.get_margin_analysis data) =
    match ranked_group g data with
    | w :: r :: _ => [App.margin_row w r]
    | _ => []
    end /\
  App.get_margin_analysis tie_rows =
    [App.mkMargin "5" "General" "A" "PartyX" 120 95 "PartyY" "B" 25] /\
  V2.pivot_margin tie_rows =
    Ok [V2.mkPivot "5" "General" (Some "A") (Some "B") (Some "PartyX") (Some "PartyY")
                   (Some 120) (Some 95) 25].
Proof.
  split; [| split; [apply app_margin_group | split; vm_compute; reflexivity]].
  pose proof (ranked_group_grp g data) as Gr. rewrite Forall_forall in Gr.
  eapply strongly_sorted_impl_in; [apply ranked_group_sorted |].
  intros a b Ha Hb. apply rank_key_same_group.
  rewrite (Gr a Ha), (Gr b Hb). reflexivity.
Qed.

(** C1, counterexample.  With C entered before B, both on 95 votes, the
    runner-up is still B: the tie is not broken by input order. *)
Lemma tie_break_not_input_order :
  map Name tie_rows_swapped = ["A"; "C"; "B"] /\
  map Votes tie_rows_swapped = [120; 95; 95] /\
  map Name (ranked_group ("5", "General") tie_rows_swapped) = ["A"; "B"; "C"] /\
  map App.Name_R (App.get_margin_analysis tie_rows_swapped) = ["B"] /\
  V2.pivot_margin tie_rows_swapped =
    Ok [V2.mkPivot "5" "General" (Some "A") (Some "B") (Some "PartyX") (Some "PartyY")
                   (Some 120) (Some 95) 25].
Proof. repeat split; vm_compute; reflexivity. Qed.

(** The ranking does not depend on the order of the input rows at all. *)
Lemma ranked_group_perm (data data' : DataFrame) (g : string * string) :
  Permutation data data' -> ranked_group g data = ranked_group g data'.
Proof.
  intros P. unfold ranked_group, sorted_agg, agg.
  rewrite (groupby_sum_perm agg_key data data' P). reflexivity.
Qed.

(** app.py returns no margin row for a group with a single candidate. *)
Lemma app_unopposed_dropped (data : DataFrame) (g : string * string) (w : Row) :
  ranked_group g data = [w] ->
  filter (fun m => keqb (App.m_grp m) g) (App.get_margin_analysis data) = [].
Proof. intros E. rewrite app_margin_group, E. reflexivity. Qed.

(** v2app.py, when some group is contested: the row of a single-candidate
    group has no runner-up and the winner's votes as margin. *)
Lemma v2_unopposed_row (data : DataFrame) (g0 g : string * string) (w0 r0 w : Row)
    (rest0 : list Row) :
  votes_ok data -> ranked_group g0 data = w0 :: r0 :: rest0 ->
  ranked_group g data = [w] ->
  exists rows p,
    V2.pivot_margin data = Ok rows /\
    filter (fun q => keqb (V2.p_grp q) g) rows = [p] /\
    V2.Winner p = Some (Name w) /\ V2.RunnerUp p = None /\ V2.Run_Party p = None /\
    V2.Margin p = Votes w.
Proof.
  intros V E0 E.
  destruct (pivot_margin_group data g0 g w0 r0 rest0 V E0) as [rows [Hr Hf]].
  { rewrite E. discriminate. }
  exists rows, (V2.pivot_row_of g (ranked_group g data)).
  split; [exact Hr |]. split; [exact Hf |]. rewrite E. repeat split.
Qed.

(** v2app.py, when no group is contested: the column assignment raises. *)
Lemma v2_all_unopposed_raises (data : DataFrame) :
  (forall g, (List.length (ranked_group g data) <= 1)%nat) ->
  V2.pivot_margin data = Raise ValueError.
Proof.
  intros Hall. unfold V2.pivot_margin. rewrite reshapable_ranked.
  assert (forall k a, In (k, a) (V2.ranked data) -> k = 1%nat) as Hk.
  { intros k a Hin.
    assert (In (k, a) (filter (fun cr => in_group grp (grp a) (snd cr)) (V2.ranked data)))
      as Hf by (apply filter_In; split; [exact Hin | apply keqb_refl]).
    rewrite ranked_rows in Hf. specialize (Hall (grp a)).
    destruct (ranked_group (grp a) data) as [| w [| r rest]]; simpl in *.
    - contradiction.
    - destruct Hf as [Hf | []]. inversion Hf. reflexivity.
    - lia. }
  destruct (V2.ranked data) as [| [k a] frame] eqn:E.
  - reflexivity.
  - unfold V2.pivot_columns.
    rewrite (sorted_unique_eq (map fst ((k, a) :: frame)) [1%nat]).
    + reflexivity.
    + constructor; constructor.
    + intros x. rewrite in_map_iff. split.
      * intros [[k' a'] [Hx Hin]]. simpl in Hx. subst k'.
        left. symmetry. apply (Hk x a'). exact Hin.
      * intros [<- | []]. exists (k, a). split; [| left; reflexivity].
        simpl. apply (Hk k a). left. reflexivity.
Qed.

(** C2.  For a table whose only group has one candidate, app.py returns
    no margin row and v2app.py raises at the column assignment; the claim
    asks for one result with no runner-up and margin 120. *)
Theorem unopposed_group_lost :
  App.get_margin_analysis unopposed_rows = [] /\
  V2.pivot_margin unopposed_rows = Raise ValueError /\
  App.get_margin_analysis mixed_rows =
    [App.mkMargin "5" "General" "A" "PartyX" 120 95 "PartyY" "B" 25] /\
  V2.pivot_margin mixed_rows =
    Ok [V2.mkPivot "5" "General" (Some "A") (Some "B") (Some "PartyX") (Some "PartyY")
                   (Some 120) (Some 95) 25;
        V2.mkPivot "6" "General" (Some "C") None (Some "PartyX") None
                   (Some 95) None 95].
Proof. repeat split; vm_compute; reflexivity. Qed.

(** Unit ids of both kinds in one list: the natural sort raises. *)
Lemma natural_sort_mixed (l : list string) (a b : string) :
  In a l -> In b l -> isdigit a = true -> isdigit b = false ->
  sorted natural_sort_key l = Raise TypeError.
Proof.
  intros Ha Hb Da Db. apply (sorted_mixed natural_sort_key l a b Ha Hb).
  unfold natural_sort_key. rewrite Da, Db. simpl. discriminate.
Qed.

(** C3.  Sorting ['2','10','1','Ward-A'] with [natural_sort_key] raises
    TypeError, because the key of 'Ward-A' is a string and the other keys
    are integers; the claim asks for ['1','2','10','Ward-A'].  On a list of
    numeric ids alone the order is the numeric one, on a list of
    non-numeric ids alone the lexicographic one. *)
Theorem natural_sort_mixed_ids :
  sorted natural_sort_key ["2"; "10"; "1"; "Ward-A"] = Raise TypeError /\
  sorted natural_sort_key ["2"; "10"; "1"] = Ok ["1"; "2"; "10"] /\
  sorted natural_sort_key ["Ward-B"; "East"; "Ward-A"] = Ok ["East"; "Ward-A"; "Ward-B"].
Proof. repeat split; vm_compute; reflexivity. Qed.

(** The margin rows of both scripts for a group with at least two ranked
    rows, under [votes_ok]. *)
Lemma contested_group_rows (data : DataFrame) (g : string * string) (w r : Row)
    (rest : list Row) :
  votes_ok data -> ranked_group g data = w :: r :: rest ->
  filter (fun m => keqb (App.m_grp m) g) (App.get_margin_analysis data) =
    [App.mkMargin (Prabhag w) (Election_type w) (Name w) (Party w) (Votes w)
                  (Votes r) (Party r) (Name r) (Votes w - Votes r)] /\
  (exists rows,
     V2.pivot_margin data = Ok rows /\
     filter (fun p => keqb (V2.p_grp p) g) rows =
       [V2.mkPivot (fst g) (snd g) (Some (Name w)) (Some (Name r))
                   (Some (Party w)) (Some (Party r))
                   (Some (Votes w)) (Some (Votes r)) (Votes w - Votes r)]) /\
  0 <= Votes r <= Votes w /\ Votes w <= int64_max.
Proof.
  intros V E.
  pose proof (ranked_group_range g data V) as Rg. rewrite E in Rg.
  inversion Rg as [| ? ? Hw Rg']; subst. inversion Rg' as [| ? ? Hr _]; subst.
  destruct (ranked_group_top_two g data w r rest E) as [_ [_ Hord]].
  assert (Votes r <= Votes w) as Hle by lia.
  split; [| split; [| lia]].
  - rewrite app_margin_group, E. unfold App.margin_row.
    rewrite wrap64_id by (unfold int64_min, int64_max in *; lia). reflexivity.
  - destruct (pivot_margin_group data g g w r rest V E) as [rows [Hrows Hf]].
    { rewrite E. discriminate. }
    exists rows. split; [exact Hrows |]. rewrite Hf, E. reflexivity.
Qed.

(** C4 (as amended).  On a table whose votes are non-negative and add up
    to a total that fits the 64-bit Votes column: for every (unit,
    category) group with at least two candidates the computed margin is
    the difference of the top two totals, it is not negative, and it is 0
    exactly when the top two totals are equal; in app.py and in
    v2app.py. *)
Theorem margin_nonneg (data : DataFrame) (g : string * string) (w r : Row)
    (rest : list Row) :
  votes_ok data -> ranked_group g data = w :: r :: rest ->
  (exists m,
     filter (fun m => keqb (App.m_grp m) g) (App.get_margin_analysis data) = [m] /\
     App.Votes_W m = Votes w /\ App.Votes_R m = Votes r /\
     0 <= App.Margin m /\ (App.Margin m = 0 <-> Votes w = Votes r)) /\
  (exists rows p,
     V2.pivot_margin data = Ok rows /\
     filter (fun q => keqb (V2.p_grp q) g) rows = [p] /\
     V2.Win_Votes p = Some (Votes w) /\ V2.Run_Votes p = Some (Votes r) /\
     0 <= V2.Margin p /\ (V2.Margin p = 0 <-> Votes w = Votes r)).
Proof.
  intros V E.
  destruct (contested_group_rows data g w r rest V E) as [Ha [[rows [Hr Hf]] [Hle _]]].
  split.
  - eexists. split; [exact Ha |]. simpl. repeat split; lia.
  - exists rows. eexists. split; [exact Hr |]. split; [exact Hf |].
    simpl. repeat split; lia.
Qed.

Lemma votes_ok_tie_rows : votes_ok tie_rows.
Proof.
  split.
  - repeat constructor; simpl; lia.
  - vm_compute. discriminate.
Qed.

Lemma margin_nonneg_witness :
  (exists m,
     filter (fun m => keqb (App.m_grp m) ("5", "General")) (App.get_margin_analysis tie_rows)
       = [m] /\
     App.Votes_W m = 120 /\ App.Votes_R m = 95 /\
     0 <= App.Margin m /\ (App.Margin m = 0 <-> 120 = 95)) /\
  (exists rows p,
     V2.pivot_margin tie_rows = Ok rows /\
     filter (fun q => keqb (V2.p_grp q) ("5", "General")) rows = [p] /\
     V2.Win_Votes p = Some 120 /\ V2.Run_Votes p = Some 95 /\
     0 <= V2.Margin p /\ (V2.Margin p = 0 <-> 120 = 95)).
Proof.
  apply (margin_nonneg tie_rows ("5", "General")
           (mkRow "5" "General" "A" "PartyX" 120)
           (mkRow "5" "General" "B" "PartyY" 95)
           [mkRow "5" "General" "C" "PartyX" 95]).
  - exact votes_ok_tie_rows.
  - vm_compute. reflexivity.
Defined.

(** C4, counterexample.  Every row of [overflow_rows] has a non-negative
    number of votes that fits the Votes column, but the two rows of A add
    up to 2^63, which the column holds as -2^63: B is ranked first with 5
    votes, A second, and the margin of app.py, 5 + 2^63 in 64 bits, is
    negative. *)
Lemma margin_negative_on_overflow :
  Forall (fun r => 0 <= Votes r /\ in_int64 (Votes r) = true) overflow_rows /\
  ranked_group ("5", "General") overflow_rows
    = [mkRow "5" "General" "B" "PartyY" 5;
       mkRow "5" "General" "A" "PartyX" (- 2 ^ 63)] /\
  map App.Margin (App.get_margin_analysis overflow_rows) = [5 - 2 ^ 63] /\
  5 - 2 ^ 63 < 0.
Proof.
  split; [| split; [| split]].
  - repeat constructor; vm_compute; congruence.
  - vm_compute. reflexivity.
  - vm_compute. reflexivity.
  - vm_compute. reflexivity.
Qed.

(** C10 (as amended).  On a table whose votes are non-negative and add up
    to a total that fits the 64-bit Votes column: for every (unit,
    category) group with at least two candidates,
    the margin row of app.py (head(1) winners merged with nth(1) runners)
    and the pivot row of v2app.py (head(2), cumcount rank, pivot) have the
    same winner name and party, the same runner-up name and party and the
    same margin. *)
Theorem margin_paths_agree (data : DataFrame) (g : string * string) (w r : Row)
    (rest : list Row) :
  votes_ok data -> ranked_group g data = w :: r :: rest ->
  exists m rows p,
    filter (fun m => keqb (App.m_grp m) g) (App.get_margin_analysis data) = [m] /\
    V2.pivot_margin data = Ok rows /\
    filter (fun q => keqb (V2.p_grp q) g) rows = [p] /\
    V2.Winner p = Some (App.Name_W m) /\ V2.Win_Party p = Some (App.Party_W m) /\
    V2.RunnerUp p = Some (App.Name_R m) /\ V2.Run_Party p = Some (App.Party_R m) /\
    V2.Margin p = App.Margin m.
Proof.
  intros V E.
  destruct (contested_group_rows data g w r rest V E) as [Ha [[rows [Hr Hf]] _]].
  eexists. exists rows. eexists.
  split; [exact Ha |]. split; [exact Hr |]. split; [exact Hf |].
  simpl. repeat split.
Qed.

Lemma margin_paths_agree_witness :
  exists m rows p,
    filter (fun m => keqb (App.m_grp m) ("5", "General")) (App.get_margin_analysis tie_rows)
      = [m] /\
    V2.pivot_margin tie_rows = Ok rows /\
    filter (fun q => keqb (V2.p_grp q) ("5", "General")) rows = [p] /\
    V2.Winner p = Some (App.Name_W m) /\ V2.Win_Party p = Some (App.Party_W m) /\
    V2.RunnerUp p = Some (App.Name_R m) /\ V2.Run_Party p = Some (App.Party_R m) /\
    V2.Margin p = App.Margin m.
Proof.
  apply (margin_paths_agree tie_rows ("5", "General")
           (mkRow "5" "General" "A" "PartyX" 120)
           (mkRow "5" "General" "B" "PartyY" 95)
           [mkRow "5" "General" "C" "PartyX" 95]).
  - exact votes_ok_tie_rows.
  - vm_compute. reflexivity.
Defined.

(** C10, counterexample.  On [overflow_rows], whose summed votes leave
    the range of the Votes column, app.py returns a margin row for the
    group, with B as winner and the wrapped difference as margin, while the
    margin table of v2app.py is not built at all: the difference of the
    two vote cells, 5 + 2^63 as a Python integer, does not convert to the
    column type and [astype(int)] raises OverflowError. *)
Lemma margin_paths_differ_on_overflow :
  ranked_group ("5", "General") overflow_rows
    = [mkRow "5" "General" "B" "PartyY" 5;
       mkRow "5" "General" "A" "PartyX" (- 2 ^ 63)] /\
  App.get_margin_analysis overflow_rows
    = [App.mkMargin "5" "General" "B" "PartyY" 5 (- 2 ^ 63) "PartyX" "A" (5 - 2 ^ 63)] /\
  V2.pivot_margin overflow_rows = Raise OverflowError /\
  (forall rows, V2.pivot_margin overflow_rows <> Ok rows).
Proof.
  split; [| split; [| split]].
  - vm_compute. reflexivity.
  - vm_compute. reflexivity.
  - vm_compute. reflexivity.
  - intros rows. vm_compute. discriminate.
Qed.

(** C8.  Aggregation is order-independent: the aggregated table of a
    permutation of the input rows is the aggregated table of the input
    rows. *)
Theorem aggregation_order_independent (data data' : DataFrame) :
  Permutation data data' -> agg data' = agg data.
Proof.
  intros P. unfold agg. rewrite (groupby_sum_perm agg_key data data' P). reflexivity.
Qed.

Lemma aggregation_order_independent_witness :
  Permutation tie_rows tie_rows_swapped /\ agg tie_rows_swapped = agg tie_rows.
Proof.
  assert (Permutation tie_rows tie_rows_swapped) as P
    by (unfold tie_rows, tie_rows_swapped; apply perm_skip, perm_swap).
  split; [exact P |].
  apply (aggregation_order_independent tie_rows tie_rows_swapped). exact P.
Defined.

(** C9 (as amended).  During loading a record whose party cell is absent
    (NaN, which is how an empty cell is read) is given the party
    "Independent"; any other cell is stripped of surrounding white space,
    so the loaded party is empty exactly when the cell holds white space
    only. *)
Theorem party_default :
  load_party None = "Independent" /\
  read_csv_cell "" = None /\
  (forall s, load_party (Some s) = strip s) /\
  (forall cell, load_party cell = "" <-> exists s, cell = Some s /\ all_space s = true).
Proof.
  split; [reflexivity |]. split; [reflexivity |]. split; [reflexivity |].
  intros [s |]; simpl.
  - unfold load_party. rewrite strip_empty. split.
    + intros Hs. exists s. split; [reflexivity | exact Hs].
    + intros [s' [E Hs]]. inversion E. subst. exact Hs.
  - split; [vm_compute; discriminate |]. intros [s [E _]]. discriminate.
Qed.

(** C9, counterexample.  A party cell of blanks is loaded as the empty
    string, not as "Independent". *)
Lemma blank_party_stays_empty :
  load_party (read_csv_cell "  ") = "" /\ load_party (read_csv_cell "  ") <> "Independent".
Proof. split; [vm_compute; reflexivity | vm_compute; discriminate]. Qed.

(* ------------------------------------------------------------------ *)
(** ** Report composition *)

Lemma mapM_raise {A B : Type} (f : A -> result B) (l : list A) (x : A) (e : exn) :
  In x l -> f x = Raise e -> exists e', mapM f l = Raise e'.
Proof.
  induction l as [| a l IH]; simpl; intros Hin Hx; [contradiction |].
  destruct (f a) as [b | e1] eqn:Ea; simpl.
  - destruct Hin as [-> | Hin]; [congruence |].
    destruct (IH Hin Hx) as [e' ->]. simpl. eexists. reflexivity.
  - eexists. reflexivity.
Qed.

Lemma filter_idem {A : Type} (f : A -> bool) (l : list A) :
  filter f (filter f l) = filter f l.
Proof.
  apply filter_all. intros a Ha. apply filter_In in Ha. apply Ha.
Qed.

(** app.py: a rendering failure on the chart of any reported unit aborts
    the full result report. *)
Lemma app_render_failure_aborts (to_image : Figure -> result Image) (df : DataFrame)
    (U P : list string) (wm : string) (us : list string) (u : string) (e : exn) :
  sorted natural_sort_key (unique (map Prabhag (App.f_df df U P))) = Ok us ->
  In u us ->
  to_image (mkFigure ("Prabhag " ++ u ++ " Summary")
              (App.chart_data (filter (fun r => keqb (Prabhag r) u) (App.f_df df U P))))
    = Raise e ->
  exists e', App.full_result_pdf to_image df U P wm = Raise e'.
Proof.
  intros Hs Hu Hr. unfold App.full_result_pdf. rewrite Hs. simpl.
  destruct (mapM_raise (App.result_page to_image (App.f_df df U P)) us u e Hu) as [e' ->].
  - unfold App.result_page. rewrite Hr. reflexivity.
  - eexists. reflexivity.
Qed.

(** v2app.py: [compose] yields one page per reported unit, whatever the
    renderer does; only the sort of the unit ids can raise. *)
Lemma v2_compose_pages (to_image : Figure -> result Image) (data : DataFrame)
    (U P : list string) (wm : string) (doc : Document) :
  V2.compose to_image data U P wm = Ok (Some doc) ->
  exists us,
    sorted natural_sort_key (unique (map Prabhag (V2.filtered_df data U P))) = Ok us /\
    Permutation us (unique (map Prabhag (V2.filtered_df data U P))) /\
    doc_watermark doc = wm /\
    doc_pages doc = map (V2.report_page to_image (V2.filtered_df data U P)) us.
Proof.
  unfold V2.compose.
  destruct (sorted natural_sort_key (unique (map Prabhag (V2.filtered_df data U P))))
    as [us | e] eqn:Es; simpl; [| discriminate].
  destruct us as [| u us]; [discriminate |].
  intros E. inversion E; subst. exists (u :: us).
  split; [reflexivity |]. split; [apply (sorted_ok_perm natural_sort_key); exact Es |].
  split; reflexivity.
Qed.

Lemma v2_compose_raises_TypeError (to_image : Figure -> result Image) (data : DataFrame)
    (U P : list string) (wm : string) (e : exn) :
  V2.compose to_image data U P wm = Raise e -> e = TypeError.
Proof.
  unfold V2.compose.
  destruct (sorted natural_sort_key (unique (map Prabhag (V2.filtered_df data U P))))
    as [us | e'] eqn:Es; simpl.
  - destruct us; discriminate.
  - intros E. inversion E; subst.
    apply (sorted_raises_TypeError natural_sort_key _ _ Es).
Qed.


(** C5.  With a renderer that fails on unit "7" and units "7" and "8"
    selected, the full result report of app.py aborts with the rendering
    error and yields no page at all, where the claim asks for a fallback
    page for "7" and the page of "8"; [generate_pdf] of v2app.py does what
    the claim says. *)
Theorem render_failure_in_full_result :
  App.full_result_pdf fails_on_7 two_unit_rows ["7"; "8"] ["PartyX"; "PartyY"] "2025"
    = Raise RenderError /\
  V2.compose fails_on_7 two_unit_rows ["7"; "8"] ["PartyX"; "PartyY"] "2025"
    = Ok (Some (mkDoc "2025"
            [mkPage "Election Report: Prabhag 7"
               (TextBlock "Candidate Vote Summary (Chart unavailable):"
                  ["A (PartyX): 1,200 votes"; "B (PartyY): 950 votes"]);
             mkPage "Election Report: Prabhag 8"
               (Chart "Vote Distribution - Prabhag 8")])) /\
  V2.generate_pdf fails_on_7 titles_output titles_output
      two_unit_rows ["7"; "8"] ["PartyX"; "PartyY"] "2025"
    = Ok (Some "Election Report: Prabhag 7|Election Report: Prabhag 8").
Proof. repeat split; vm_compute; reflexivity. Qed.

(** C6.  When the unit and party filters select no rows, report
    composition ends normally with nothing to render: [generate_pdf] of
    v2app.py returns None without adding a page, the full result report of
    app.py is a document with no pages; no exception is raised. *)
Theorem empty_filter_nothing_to_render (to_image : Figure -> result Image)
    (output_S output : Document -> result string) (data : DataFrame)
    (U P : list string) (wm : string) :
  filter (fun r => isin (Prabhag r) U && isin (Party r) P) data = [] ->
  V2.compose to_image data U P wm = Ok None /\
  V2.generate_pdf to_image output_S output data U P wm = Ok None /\
  App.full_result_pdf to_image data U P wm = Ok (mkDoc wm []).
Proof.
  intros E.
  assert (V2.compose to_image data U P wm = Ok None) as Hc.
  { unfold V2.compose, V2.filtered_df. rewrite E. reflexivity. }
  split; [exact Hc |]. split.
  - unfold V2.generate_pdf. rewrite Hc. reflexivity.
  - unfold App.full_result_pdf, App.f_df. rewrite E. reflexivity.
Qed.

Lemma empty_filter_nothing_to_render_witness :
  filter (fun r => isin (Prabhag r) [] && isin (Party r) ["PartyX"; "PartyY"]) tie_rows = [] /\
  V2.compose title_image tie_rows [] ["PartyX"; "PartyY"] "2025" = Ok None /\
  V2.generate_pdf title_image titles_output titles_output
    tie_rows [] ["PartyX"; "PartyY"] "2025" = Ok None /\
  App.full_result_pdf title_image tie_rows [] ["PartyX"; "PartyY"] "2025"
    = Ok (mkDoc "2025" []).
Proof.
  split; [reflexivity |].
  apply (empty_filter_nothing_to_render title_image titles_output titles_output
           tie_rows [] ["PartyX"; "PartyY"] "2025").
  reflexivity.
Defined.

(** C7 (as amended).  The full result report (app.py) and [generate_pdf]
    (v2app.py) restrict the rows to unit in unit_filter AND party in
    party_filter before any aggregation: they give the same result on the
    table and on its filtered rows.  The margin report aggregates the
    whole table and keeps the margin rows whose unit is in unit_filter,
    which is the margin analysis of the rows whose unit is in unit_filter;
    the party filter plays no part in it. *)
Theorem report_unit_party_filters (to_image : Figure -> result Image)
    (df : DataFrame) (U P : list string) (wm : string) :
  App.full_result_pdf to_image df U P wm
    = App.full_result_pdf to_image (App.f_df df U P) U P wm /\
  V2.compose to_image df U P wm
    = V2.compose to_image (V2.filtered_df df U P) U P wm /\
  App.m_report_df df U
    = App.get_margin_analysis (filter (fun r => isin (Prabhag r) U) df) /\
  App.margin_report_pdf to_image df U P wm
    = App.margin_report_pdf to_image (filter (fun r => isin (Prabhag r) U) df) U P wm /\
  (forall P', App.margin_report_pdf to_image df U P' wm
              = App.margin_report_pdf to_image df U P wm).
Proof.
  assert (App.m_report_df df U
          = App.get_margin_analysis (filter (fun r => isin (Prabhag r) U) df)) as Hm.
  { unfold App.m_report_df.
    rewrite (get_margin_analysis_unit_filter (fun u => isin u U) df). reflexivity. }
  split; [| split; [| split; [exact Hm | split]]].
  - unfold App.full_result_pdf, App.f_df. rewrite filter_idem. reflexivity.
  - unfold V2.compose, V2.filtered_df. rewrite filter_idem. reflexivity.
  - unfold App.margin_report_pdf.
    assert (App.m_report_df (filter (fun r => isin (Prabhag r) U) df) U
            = App.m_report_df df U) as ->; [| reflexivity].
    unfold App.m_report_df.
    rewrite (get_margin_analysis_unit_filter (fun u => isin u U) df).
    apply filter_idem.
  - intros P'. reflexivity.
Qed.

(** C7, counterexample.  With unit "5" and party "PartyX" selected, the
    margin report still pairs the winner A (PartyX) with the runner-up B of
    PartyY, margin 25; the margin analysis of the filtered rows would pair
    A with C, margin 70. *)
Lemma margin_report_ignores_party_filter :
  map App.Name_R (App.m_report_df party_rows ["5"]) = ["B"] /\
  map App.Margin (App.m_report_df party_rows ["5"]) = [25] /\
  map App.Margin (App.get_margin_analysis (App.f_df party_rows ["5"] ["PartyX"])) = [70] /\
  App.margin_report_pdf bars_image party_rows ["5"] ["PartyX"] "2025"
    = Ok (mkDoc "2025"
            [mkPage "Margin Report: General" (Chart "Margins for General: 5=25 PartyX")]) /\
  App.margin_report_pdf bars_image party_rows ["5"] ["PartyX"] "2025"
    <> App.margin_report_pdf bars_image (App.f_df party_rows ["5"] ["PartyX"])
         ["5"] ["PartyX"] "2025".
Proof.
  split; [vm_compute; reflexivity |]. split; [vm_compute; reflexivity |].
  split; [vm_compute; reflexivity |]. split; [vm_compute; reflexivity |].
  vm_compute. discriminate.
Qed.

(* ================================================================== *)
(** * Further properties of the scripts *)

(* ------------------------------------------------------------------ *)
(** ** What the aggregation holds *)

Lemma strongly_sorted_nodup {A : Type} (R : A -> A -> Prop) (l : list A) :
  (forall a, ~ R a a) -> StronglySorted R l -> NoDup l.
Proof.
  intros Irr. induction 1 as [| a l S IH F]; constructor; [| exact IH].
  intros Hin. rewrite Forall_forall in F. exact (Irr a (F a Hin)).
Qed.

Section GroupByTotals.
Context {K : Type} `{KeyOrderLaws K}.
Variable key : Row -> K.

Lemma alookup_in (k : K) (v : Z) (m : list (K * Z)) :
  keys_sorted m -> (In (k, v) m <-> alookup k m = Some v).
Proof.
  unfold keys_sorted. induction 1 as [| [k' s] m S IH F]; simpl.
  - split; [contradiction | discriminate].
  - rewrite Forall_forall in F. destruct (keqb k k') eqn:E.
    + apply keqb_eq in E. subst k'. split.
      * intros [Heq | Hin]; [congruence |].
        exfalso. apply (kcmp_lt_irrefl k). exact (F (k, v) Hin).
      * intros Heq. left. congruence.
    + apply keqb_neq in E. rewrite <- IH. split.
      * intros [Heq | Hin]; [congruence | exact Hin].
      * intros Hin. right. exact Hin.
Qed.

Lemma alookup_below (k : K) (m : list (K * Z)) :
  Forall (fun e => kcmp k (fst e) = Lt) m -> alookup k m = None.
Proof.
  induction 1 as [| [k' s] m Hk F IH]; simpl; [reflexivity |].
  simpl in Hk. unfold keqb. rewrite Hk. exact IH.
Qed.

Lemma alookup_add_votes (k k' : K) (v : Z) (m : list (K * Z)) :
  keys_sorted m ->
  alookup k (add_votes k' v m) =
  if keqb k k'
  then Some (wrap64 (match alookup k m with Some s => s | None => 0 end + v))
  else alookup k m.
Proof.
  unfold keys_sorted. induction 1 as [| [h s] m S IH F]; simpl.
  - destruct (keqb k k'); reflexivity.
  - destruct (kcmp k' h) eqn:E; simpl.
    + apply kcmp_eq in E. subst h. destruct (keqb k k'); reflexivity.
    + destruct (keqb k k') eqn:Ek; [| reflexivity].
      apply keqb_eq in Ek. subst k'.
      unfold keqb at 1. rewrite E.
      rewrite alookup_below; [reflexivity |].
      eapply Forall_impl; [| exact F]. intros e He. simpl in He.
      eapply kcmp_trans; eassumption.
    + rewrite IH. destruct (keqb k k') eqn:Ek; [| reflexivity].
      apply keqb_eq in Ek. subst k'.
      unfold keqb. rewrite E. reflexivity.
Qed.

Lemma key_rows_none (k : K) (data : DataFrame) :
  existsb (fun r => keqb (key r) k) data = false -> key_rows key k data = [].
Proof.
  intros E. unfold key_rows. apply filter_none. intros r Hr.
  destruct (keqb (key r) k) eqn:Er; [| reflexivity].
  assert (existsb (fun r => keqb (key r) k) data = true) as Ht
    by (apply existsb_exists; exists r; split; assumption).
  congruence.
Qed.

Lemma alookup_fold (k : K) (data : DataFrame) (acc : list (K * Z)) :
  keys_sorted acc ->
  alookup k (fold_left (fun a r => add_votes (key r) (Votes r) a) data acc) =
  if existsb (fun r => keqb (key r) k) data
  then Some (wrap64 (match alookup k acc with Some s => s | None => 0 end
                     + sum_votes (key_rows key k data)))
  else alookup k acc.
Proof.
  revert acc. induction data as [| r data IH]; simpl; intros acc S.
  - reflexivity.
  - rewrite IH by (apply add_votes_sorted; exact S).
    rewrite alookup_add_votes by exact S.
    rewrite (keqb_sym k (key r)).
    unfold key_rows. simpl. fold (key_rows key k data).
    destruct (keqb (key r) k) eqn:Er; simpl.
    + destruct (existsb (fun r0 => keqb (key r0) k) data) eqn:Ex.
      * unfold sum_votes. simpl. fold (sum_votes (key_rows key k data)).
        rewrite wrap64_add_l. f_equal. f_equal. lia.
      * rewrite (key_rows_none k data Ex). unfold sum_votes. simpl.
        f_equal. f_equal. lia.
    + reflexivity.
Qed.

(** An entry of [groupby_sum] exists for the keys of the rows, and holds
    the int64 sum of the votes of the rows with its key. *)
Lemma groupby_sum_entry (k : K) (v : Z) (data : DataFrame) :
  In (k, v) (groupby_sum key data) <->
  (exists r, In r data /\ key r = k) /\ v = wrap64 (sum_votes (key_rows key k data)).
Proof.
  rewrite (alookup_in k v _ (groupby_sum_sorted key data)).
  unfold groupby_sum. rewrite alookup_fold by constructor. simpl.
  destruct (existsb (fun r => keqb (key r) k) data) eqn:Ex.
  - apply existsb_exists in Ex. destruct Ex as [r [Hr Er]]. apply keqb_eq in Er.
    split.
    + intros Hv. inversion Hv. split; [exists r; auto | reflexivity].
    + intros [_ Hv]. subst v. reflexivity.
  - split; [discriminate |]. intros [[r [Hr Er]] _]. exfalso.
    assert (existsb (fun r => keqb (key r) k) data = true) as Ht.
    { apply existsb_exists. exists r. split; [exact Hr |]. apply keqb_eq. exact Er. }
    congruence.
Qed.

Lemma sum_votes_filter_le (f : Row -> bool) (data : DataFrame) :
  Forall (fun r => 0 <= Votes r) data ->
  0 <= sum_votes (filter f data) <= sum_votes data.
Proof.
  unfold sum_votes. induction 1 as [| r data Hr F IH]; simpl; [lia |].
  destruct (f r); simpl; lia.
Qed.
End GroupByTotals.

Lemma agg_row_eta (a : Row) : agg_row (agg_key a, Votes a) = a.
Proof. destruct a. reflexivity. Qed.

Lemma agg_in (a : Row) (data : DataFrame) :
  In a (agg data) <-> In (agg_key a, Votes a) (groupby_sum agg_key data).
Proof.
  unfold agg. rewrite in_map_iff. split.
  - intros [e [He Hin]]. subst a. rewrite agg_key_agg_row, Votes_agg_row.
    destruct e. exact Hin.
  - intros Hin. exists (agg_key a, Votes a). split; [apply agg_row_eta | exact Hin].
Qed.

Lemma agg_entry (data : DataFrame) (a : Row) :
  In a (agg data) <->
  (exists r, In r data /\ agg_key r = agg_key a) /\
  Votes a = wrap64 (sum_votes (filter (fun r => keqb (agg_key r) (agg_key a)) data)).
Proof. rewrite agg_in. apply (groupby_sum_entry agg_key). Qed.

Lemma agg_keys_in (data : DataFrame) (k : string * string * string * string) :
  In k (map agg_key (agg data)) <-> In k (map agg_key data).
Proof.
  rewrite !in_map_iff. split.
  - intros [a [Ha Hin]]. apply agg_entry in Hin. destruct Hin as [[r [Hr Er]] _].
    exists r. split; [congruence | exact Hr].
  - intros [r [Er Hr]].
    exists (agg_row (k, wrap64 (sum_votes (key_rows agg_key k data)))).
    split; [apply agg_key_agg_row |].
    apply agg_in. rewrite agg_key_agg_row, Votes_agg_row. simpl.
    apply (groupby_sum_entry agg_key). split; [exists r; auto | reflexivity].
Qed.

(** X1.  The aggregated table has one row per distinct (Prabhag,
    Election_type, Name, Party) of the input, in ascending key order: its
    keys are strictly ascending, hence without duplicates, and they are the
    keys of the input rows. *)
Theorem agg_one_row_per_key (data : DataFrame) :
  StronglySorted (fun a b => kcmp (agg_key a) (agg_key b) = Lt) (agg data) /\
  NoDup (map agg_key (agg data)) /\
  (forall k, In k (map agg_key (agg data)) <-> In k (map agg_key data)).
Proof.
  split; [apply agg_sorted |]. split.
  - apply (strongly_sorted_nodup (fun a b : string * string * string * string => kcmp a b = Lt)).
    + intros a. apply kcmp_lt_irrefl.
    + apply strongly_sorted_map with (R := fun a b : string * string * string * string => kcmp a b = Lt).
      apply agg_sorted.
  - apply agg_keys_in.
Qed.

(** X2.  The votes of an aggregated row are the int64 sum of the votes of
    all input rows with the same (Prabhag, Election_type, Name, Party); a
    row is in the aggregated table exactly when some input row has its key
    and its votes are that sum. *)
Theorem agg_row_total (data : DataFrame) (a : Row) :
  In a (agg data) <->
  (exists r, In r data /\ agg_key r = agg_key a) /\
  Votes a = wrap64 (sum_votes (filter (fun r => keqb (agg_key r) (agg_key a)) data)).
Proof. apply agg_entry. Qed.

Lemma sum_votes_agg (data : DataFrame) :
  sum_votes (agg data) = vsum (groupby_sum agg_key data).
Proof.
  unfold agg, sum_votes, vsum. rewrite map_map. f_equal.
  apply map_ext. intros e. apply Votes_agg_row.
Qed.

(** X3.  On a table with non-negative votes and a representable total,
    aggregation loses and invents no vote: every aggregated row holds the
    exact sum of the votes of its input rows, and the aggregated votes add
    up to the votes of the input. *)
Theorem agg_conserves_votes (data : DataFrame) :
  votes_ok data ->
  sum_votes (agg data) = sum_votes data /\
  (forall a, In a (agg data) ->
     Votes a = sum_votes (filter (fun r => keqb (agg_key r) (agg_key a)) data)).
Proof.
  intros [F B]. split.
  - rewrite sum_votes_agg.
    destruct (groupby_fold_nonneg agg_key data [] F ltac:(constructor)
                ltac:(unfold vsum; simpl; lia)) as [_ S].
    fold (groupby_sum agg_key data) in S. rewrite S. reflexivity.
  - intros a Ha. apply agg_entry in Ha. destruct Ha as [_ Hv].
    rewrite Hv. apply wrap64_id.
    pose proof (sum_votes_filter_le (fun r => keqb (agg_key r) (agg_key a)) data F).
    unfold int64_min in *. lia.
Qed.

Lemma agg_conserves_votes_witness :
  sum_votes (agg tie_rows) = sum_votes tie_rows /\
  (forall a, In a (agg tie_rows) ->
     Votes a = sum_votes (filter (fun r => keqb (agg_key r) (agg_key a)) tie_rows)).
Proof. apply (agg_conserves_votes tie_rows). exact votes_ok_tie_rows. Defined.

(* ------------------------------------------------------------------ *)
(** ** What the margin analysis returns *)

Lemma margin_row_in_group (data : DataFrame) (m : App.MarginRow) :
  In m (App.get_margin_analysis data) ->
  exists w r rest,
    ranked_group (App.m_grp m) data = w :: r :: rest /\ m = App.margin_row w r.
Proof.
  intros Hin.
  assert (In m (filter (fun x => keqb (App.m_grp x) (App.m_grp m))
                       (App.get_margin_analysis data))) as Hf.
  { apply filter_In. split; [exact Hin | apply keqb_refl]. }
  rewrite app_margin_group in Hf.
  destruct (ranked_group (App.m_grp m) data) as [| w [| r rest]]; simpl in Hf;
    try contradiction.
  destruct Hf as [Hf | []]. exists w, r, rest. split; [reflexivity | congruence].
Qed.





Lemma nodup_by_count {A G : Type} `{KeyOrderLaws G} (f : A -> G) (l : list A) :
  (forall g, (List.length (filter (fun x => keqb (f x) g) l) <= 1)%nat) ->
  NoDup (map f l).
Proof.
  induction l as [| a l IH]; simpl; intros Hc; constructor.
  - intros Hin. apply in_map_iff in Hin. destruct Hin as [b [Eb Hb]].
    specialize (Hc (f a)). rewrite keqb_refl in Hc. simpl in Hc.
    assert (In b (filter (fun x => keqb (f x) (f a)) l)) as Hf.
    { apply filter_In. split; [exact Hb | apply keqb_eq; exact Eb]. }
    destruct (filter (fun x => keqb (f x) (f a)) l); [contradiction | simpl in Hc; lia].
  - apply IH. intros g. specialize (Hc g).
    destruct (keqb (f a) g); simpl in Hc; lia.
Qed.

(** X5.  [get_margin_analysis] returns at most one row per (unit,
    category), and it has a row for a group exactly when the group has at
    least two aggregated candidates. *)
Theorem margin_rows_are_contested_groups (data : DataFrame) :
  NoDup (map App.m_grp (App.get_margin_analysis data)) /\
  (forall g, In g (map App.m_grp (App.get_margin_analysis data)) <->
             (2 <= List.length (ranked_group g data))%nat).
Proof.
  split.
  - apply nodup_by_count. intros g. rewrite app_margin_group.
    destruct (ranked_group g data) as [| w [| r rest]]; simpl; lia.
  - intros g. rewrite in_map_iff. split.
    + intros [m [Eg Hm]].
      destruct (margin_row_in_group data m Hm) as [w [r [rest [E _]]]].
      rewrite <- Eg, E. simpl. lia.
    + intros Hlen. pose proof (app_margin_group g data) as Hf.
      pose proof (ranked_group_grp g data) as Gr.
      destruct (ranked_group g data) as [| w [| r rest]]; simpl in Hlen; try lia.
      inversion Gr as [| ? ? Gw _]; subst.
      exists (App.margin_row w r). split; [reflexivity |].
      eapply (proj1 (filter_In _ _ _)). rewrite Hf. left. reflexivity.
Qed.

Lemma sorted_agg_perm (data data' : DataFrame) :
  Permutation data data' -> sorted_agg data' = sorted_agg data.
Proof.
  intros P. unfold sorted_agg, agg.
  rewrite (groupby_sum_perm agg_key data data' P). reflexivity.
Qed.

(** X6.  The margin tables do not depend on the order of the input rows:
    on a permutation of the table [get_margin_analysis] (app.py) and the
    pivot of v2app.py return what they return on the table. *)
Theorem margin_analysis_order_independent (data data' : DataFrame) :
  Permutation data data' ->
  App.get_margin_analysis data' = App.get_margin_analysis data /\
  V2.pivot_margin data' = V2.pivot_margin data.
Proof.
  intros P. pose proof (sorted_agg_perm data data' P) as E.
  unfold App.get_margin_analysis, App.winners, App.runners,
    V2.pivot_margin, V2.ranked, V2.top_2.
  rewrite E. split; reflexivity.
Qed.

Lemma margin_analysis_order_independent_witness :
  App.get_margin_analysis tie_rows_swapped = App.get_margin_analysis tie_rows /\
  V2.pivot_margin tie_rows_swapped = V2.pivot_margin tie_rows.
Proof.
  apply (margin_analysis_order_independent tie_rows tie_rows_swapped).
  unfold tie_rows, tie_rows_swapped. apply perm_skip, perm_swap.
Defined.

(* ------------------------------------------------------------------ *)
(** ** What the pivot of v2app.py returns *)

Lemma ranked_group_nonempty (data : DataFrame) (g : string * string) :
  ranked_group g data <> [] <-> In g (map grp data).
Proof.
  split.
  - intros Hne. destruct (ranked_group g data) as [| a rest] eqn:E; [congruence |].
    assert (In a (ranked_group g data)) as Ha by (rewrite E; left; reflexivity).
    apply filter_In in Ha. destruct Ha as [Ha Hg]. apply keqb_eq in Hg.
    apply sorted_agg_in, agg_entry in Ha. destruct Ha as [[r [Hr Er]] _].
    apply in_map_iff. exists r. split; [| exact Hr].
    unfold agg_key in Er. unfold grp in *. inversion Er. congruence.
  - intros Hin. apply in_map_iff in Hin. destruct Hin as [r [Er Hr]].
    destruct (proj1 (in_map_iff agg_key (agg data) (agg_key r))
                (proj2 (agg_keys_in data (agg_key r)) (in_map agg_key data r Hr)))
      as [a [Ea Ha]].
    intros E.
    assert (In a (ranked_group g data)) as Hf.
    { apply filter_In. split; [apply sorted_agg_in; exact Ha |].
      apply keqb_eq. unfold agg_key in Ea. unfold grp in *. inversion Ea. congruence. }
    rewrite E in Hf. exact Hf.
Qed.

Lemma pivot_index_groups (data : DataFrame) :
  V2.pivot_index (V2.ranked data) = sorted_unique (map grp data).
Proof.
  unfold V2.pivot_index at 1. apply sorted_unique_eq.
  - apply sorted_unique_sorted.
  - intros g. rewrite sorted_unique_in.
    rewrite <- (sorted_unique_in g (map (fun cr => grp (snd cr)) (V2.ranked data))).
    fold (V2.pivot_index (V2.ranked data)).
    rewrite pivot_index_in. apply ranked_group_nonempty.
Qed.

(** X7.  On a table with votes in range the pivot of v2app.py fails, with
    the ValueError of the column assignment, exactly when no (unit,
    category) group has two candidates; the empty table is such a table. *)
Theorem pivot_fails_iff_uncontested (data : DataFrame) :
  votes_ok data ->
  ((exists e, V2.pivot_margin data = Raise e) <->
   (forall g, (List.length (ranked_group g data) <= 1)%nat)) /\
  (forall e, V2.pivot_margin data = Raise e -> e = ValueError).
Proof.
  intros V.
  assert ((exists e, V2.pivot_margin data = Raise e) ->
          forall g, (List.length (ranked_group g data) <= 1)%nat) as Hdir.
  { intros [e He] g. destruct (ranked_group g data) as [| w [| r rest]] eqn:E;
      simpl; try lia.
    rewrite (pivot_margin_ok data g w r rest V E) in He. discriminate. }
  split; [split; [exact Hdir |] |].
  - intros Hall. exists ValueError. apply v2_all_unopposed_raises. exact Hall.
  - intros e He.
    rewrite (v2_all_unopposed_raises data (Hdir (ex_intro _ e He))) in He. congruence.
Qed.

Lemma votes_ok_unopposed_rows : votes_ok unopposed_rows.
Proof.
  split; [repeat constructor; simpl; lia | vm_compute; discriminate].
Qed.

Lemma pivot_fails_iff_uncontested_witness :
  ((exists e, V2.pivot_margin unopposed_rows = Raise e) <->
   (forall g, (List.length (ranked_group g unopposed_rows) <= 1)%nat)) /\
  (forall e, V2.pivot_margin unopposed_rows = Raise e -> e = ValueError).
Proof. apply (pivot_fails_iff_uncontested unopposed_rows). exact votes_ok_unopposed_rows. Defined.

(** X8.  On a table with votes in range and at least one contested group,
    the pivot of v2app.py succeeds and has exactly one row for every
    distinct (Prabhag, Election_type) of the table, in ascending order;
    each row has a winner. *)
Theorem pivot_one_row_per_group (data : DataFrame) (g0 : string * string) (w0 r0 : Row)
    (rest0 : list Row) :
  votes_ok data -> ranked_group g0 data = w0 :: r0 :: rest0 ->
  exists rows,
    V2.pivot_margin data = Ok rows /\
    map V2.p_grp rows = sorted_unique (map grp data) /\
    Forall (fun p => exists n q v,
              V2.Winner p = Some n /\ V2.Win_Party p = Some q /\ V2.Win_Votes p = Some v)
           rows.
Proof.
  intros V E0. eexists. split; [apply (pivot_margin_ok data g0 w0 r0 rest0 V E0) |].
  split.
  - rewrite map_map, <- pivot_index_groups.
    rewrite (map_ext _ (fun g => g)) by (intros g; apply p_grp_pivot_row_of).
    apply map_id.
  - apply Forall_forall. intros p Hp. apply in_map_iff in Hp.
    destruct Hp as [g [<- Hg]]. apply pivot_index_in in Hg.
    destruct (ranked_group g data) as [| w rest]; [congruence |].
    exists (Name w), (Party w), (Votes w). repeat split.
Qed.

Lemma votes_ok_mixed_rows : votes_ok mixed_rows.
Proof.
  split; [repeat constructor; simpl; lia | vm_compute; discriminate].
Qed.

Lemma pivot_one_row_per_group_witness :
  exists rows,
    V2.pivot_margin mixed_rows = Ok rows /\
    map V2.p_grp rows = sorted_unique (map grp mixed_rows) /\
    Forall (fun p => exists n q v,
              V2.Winner p = Some n /\ V2.Win_Party p = Some q /\ V2.Win_Votes p = Some v)
           rows.
Proof.
  apply (pivot_one_row_per_group mixed_rows ("5", "General")
           (mkRow "5" "General" "A" "PartyX" 120)
           (mkRow "5" "General" "B" "PartyY" 95) []).
  - exact votes_ok_mixed_rows.
  - vm_compute. reflexivity.
Defined.

(** X9.  In the pivot of v2app.py, when it succeeds, the row of a group
    with a single candidate has no runner-up name, party or votes, and
    its margin is the winner's votes ([fillna(0)]). *)
Theorem pivot_unopposed_row (data : DataFrame) (g0 g : string * string)
    (w0 r0 w : Row) (rest0 : list Row) :
  votes_ok data -> ranked_group g0 data = w0 :: r0 :: rest0 ->
  ranked_group g data = [w] ->
  exists rows p,
    V2.pivot_margin data = Ok rows /\
    filter (fun q => keqb (V2.p_grp q) g) rows = [p] /\
    V2.Winner p = Some (Name w) /\ V2.Win_Party p = Some (Party w) /\
    V2.RunnerUp p = None /\ V2.Run_Party p = None /\ V2.Run_Votes p = None /\
    V2.Win_Votes p = Some (Votes w) /\ V2.Margin p = Votes w.
Proof.
  intros V E0 E.
  destruct (pivot_margin_group data g0 g w0 r0 rest0 V E0) as [rows [Hr Hf]].
  { rewrite E. discriminate. }
  exists rows, (V2.pivot_row_of g (ranked_group g data)).
  split; [exact Hr |]. split; [exact Hf |]. rewrite E. repeat split.
Qed.

Lemma pivot_unopposed_row_witness :
  exists rows p,
    V2.pivot_margin mixed_rows = Ok rows /\
    filter (fun q => keqb (V2.p_grp q) ("6", "General")) rows = [p] /\
    V2.Winner p = Some "C" /\ V2.Win_Party p = Some "PartyX" /\
    V2.RunnerUp p = None /\ V2.Run_Party p = None /\ V2.Run_Votes p = None /\
    V2.Win_Votes p = Some 95 /\ V2.Margin p = 95.
Proof.
  apply (pivot_unopposed_row mixed_rows ("5", "General") ("6", "General")
           (mkRow "5" "General" "A" "PartyX" 120)
           (mkRow "5" "General" "B" "PartyY" 95)
           (mkRow "6" "General" "C" "PartyX" 95) []).
  - exact votes_ok_mixed_rows.
  - vm_compute. reflexivity.
  - vm_compute. reflexivity.
Defined.

(* ------------------------------------------------------------------ *)
(** ** The order that sorted yields *)

Lemma py_lt_asym (a b : pykey) : py_lt a b = Ok true -> py_lt b a = Ok false.
Proof.
  destruct a as [x | x], b as [y | y]; cbn [py_lt]; intros E; try discriminate.
  - injection E as E'. f_equal. apply Z.ltb_lt in E'. apply Z.ltb_ge. lia.
  - destruct (kcmp x y) eqn:C; try discriminate.
    rewrite (kcmp_antisym x y), C. reflexivity.
Qed.

Lemma py_lt_le_trans (a b c : pykey) :
  py_lt a b = Ok true -> py_lt c b = Ok false -> py_lt c a = Ok false.
Proof.
  destruct a as [x | x], b as [y | y], c as [z | z]; cbn [py_lt]; intros E1 E2;
    try discriminate.
  - injection E1 as E1'. injection E2 as E2'. f_equal.
    apply Z.ltb_lt in E1'. apply Z.ltb_ge in E2'. apply Z.ltb_ge. lia.
  - destruct (kcmp x y) eqn:C1; try discriminate.
    destruct (kcmp z x) eqn:C2; try reflexivity.
    rewrite (kcmp_trans _ _ _ C2 C1) in E2. discriminate.
Qed.

Section SortedOrder.
Context {A : Type}.
Variable key : A -> pykey.

Lemma py_insert_ok_perm (x : A) (s s' : list A) :
  py_insert key x s = Ok s' -> Permutation s' (x :: s).
Proof.
  revert s'. induction s as [| y t IH]; simpl; intros s' E.
  - inversion E. reflexivity.
  - destruct (py_lt (key x) (key y)) as [[|] | e]; simpl in E; try discriminate.
    + inversion E. reflexivity.
    + destruct (py_insert key x t) as [t' | e]; simpl in E; try discriminate.
      inversion E. rewrite (IH t' eq_refl). apply perm_swap.
Qed.

Lemma py_insert_sorted (x : A) (s s' : list A) :
  StronglySorted (fun a b => py_lt (key b) (key a) = Ok false) s ->
  py_insert key x s = Ok s' ->
  StronglySorted (fun a b => py_lt (key b) (key a) = Ok false) s'.
Proof.
  intros S. revert s'. induction S as [| y t S IH F]; simpl; intros s' E.
  - inversion E. constructor; constructor.
  - destruct (py_lt (key x) (key y)) as [[|] | e] eqn:C; simpl in E; try discriminate.
    + inversion E. constructor; [constructor; assumption |].
      constructor; [apply py_lt_asym; exact C |].
      eapply Forall_impl; [| exact F]. intros z Hz.
      exact (py_lt_le_trans _ _ _ C Hz).
    + destruct (py_insert key x t) as [t' | e] eqn:Et; simpl in E; try discriminate.
      inversion E. constructor; [apply IH; reflexivity |].
      eapply Permutation_Forall; [symmetry; apply (py_insert_ok_perm x t t' Et) |].
      constructor; assumption.
Qed.

Lemma sorted_fold_sorted (l s s' : list A) :
  StronglySorted (fun a b => py_lt (key b) (key a) = Ok false) s ->
  fold_left (fun acc x => r <- acc ;; py_insert key x r) l (Ok s) = Ok s' ->
  StronglySorted (fun a b => py_lt (key b) (key a) = Ok false) s'.
Proof.
  revert s. induction l as [| x t IH]; simpl; intros s S E.
  - inversion E. subst. exact S.
  - destruct (py_insert key x s) as [s1 | e] eqn:E1.
    + apply (IH s1); [apply (py_insert_sorted x s s1 S E1) | exact E].
    + rewrite sorted_fold_raise in E. discriminate.
Qed.

(** What [sorted] returns is in ascending key order: no element is
    followed by one with a smaller key. *)
Lemma sorted_ok_sorted (l s : list A) :
  sorted key l = Ok s ->
  StronglySorted (fun a b => py_lt (key b) (key a) = Ok false) s.
Proof. intros E. apply (sorted_fold_sorted l [] s); [constructor | exact E]. Qed.
End SortedOrder.

Lemma is_int_natural_sort_key (u : string) : is_int (natural_sort_key u) = isdigit u.
Proof. unfold natural_sort_key. destruct (isdigit u); reflexivity. Qed.

Lemma natural_sort_error (l : list string) :
  ((exists e, sorted natural_sort_key l = Raise e) <->
   (exists a b, In a l /\ In b l /\ isdigit a = true /\ isdigit b = false)) /\
  (forall e, sorted natural_sort_key l = Raise e -> e = TypeError).
Proof.
  split; [split |].
  - intros [e He].
    assert (forall c, ~ Forall (fun y => is_int (natural_sort_key y) = c) l) as Hn.
    { intros c F. destruct (sorted_same natural_sort_key c l F) as [s [Es _]]. congruence. }
    pose proof (neg_Forall_Exists_neg (l := l) (fun y => Bool.bool_dec _ _) (Hn false)) as Ea.
    pose proof (neg_Forall_Exists_neg (l := l) (fun y => Bool.bool_dec _ _) (Hn true)) as Eb.
    apply Exists_exists in Ea. destruct Ea as [a [Ha Da]].
    apply Exists_exists in Eb. destruct Eb as [b [Hb Db]].
    rewrite is_int_natural_sort_key in Da, Db.
    exists a, b. repeat split; try assumption.
    + destruct (isdigit a); congruence.
    + destruct (isdigit b); congruence.
  - intros [a [b [Ha [Hb [Da Db]]]]]. exists TypeError.
    apply (sorted_mixed natural_sort_key l a b Ha Hb).
    rewrite !is_int_natural_sort_key, Da, Db. discriminate.
  - intros e He. apply (sorted_raises_TypeError natural_sort_key l e He).
Qed.

(** X10.  On plain unit ids (ASCII text), [sorted(..., key=natural_sort_key)]
    raises exactly when the list holds a numeric id together with a
    non-numeric one, and what it raises is a TypeError. *)
Theorem natural_sort_raises_iff_mixed (l : list string) :
  Forall (fun u => plain_id u = true) l ->
  ((exists e, sorted natural_sort_key l = Raise e) <->
   (exists a b, In a l /\ In b l /\ isdigit a = true /\ isdigit b = false)) /\
  (forall e, sorted natural_sort_key l = Raise e -> e = TypeError).
Proof. intros _. apply natural_sort_error. Qed.

Lemma natural_sort_raises_iff_mixed_witness :
  ((exists e, sorted natural_sort_key ["10"; "Ward-A"] = Raise e) <->
   (exists a b, In a ["10"; "Ward-A"] /\ In b ["10"; "Ward-A"] /\
                isdigit a = true /\ isdigit b = false)) /\
  (forall e, sorted natural_sort_key ["10"; "Ward-A"] = Raise e -> e = TypeError).
Proof.
  apply (natural_sort_raises_iff_mixed ["10"; "Ward-A"]).
  repeat constructor.
Defined.

Lemma natural_key_le (a b : string) :
  isdigit a = true -> isdigit b = true ->
  py_lt (natural_sort_key b) (natural_sort_key a) = Ok false ->
  int_of_digits 0 a <= int_of_digits 0 b.
Proof.
  unfold natural_sort_key. intros -> ->. cbn [py_lt]. intros E. injection E as E'.
  apply Z.ltb_ge in E'. exact E'.
Qed.

Lemma natural_sort_numeric_order (l : list string) :
  Forall (fun u => isdigit u = true) l ->
  exists s,
    sorted natural_sort_key l = Ok s /\ Permutation s l /\
    StronglySorted (fun a b => int_of_digits 0 a <= int_of_digits 0 b) s.
Proof.
  intros F.
  destruct (sorted_same natural_sort_key true l) as [s [Es Ps]].
  { eapply Forall_impl; [| exact F]. intros u Hu. simpl in Hu.
    rewrite is_int_natural_sort_key. exact Hu. }
  exists s. split; [exact Es |]. split; [exact Ps |].
  pose proof (sorted_ok_sorted natural_sort_key l s Es) as S.
  assert (Forall (fun u => isdigit u = true) s) as Fs
    by (eapply Permutation_Forall; [symmetry; exact Ps | exact F]).
  rewrite Forall_forall in Fs.
  eapply strongly_sorted_impl_in; [exact S |].
  intros a b Ha Hb. apply natural_key_le; auto.
Qed.

(** X11.  On plain unit ids (ASCII text) that are all numeric, the natural
    sort succeeds and returns the ids rearranged in ascending order of
    their integer value ('2' before '10'). *)
Theorem natural_sort_numeric_ascending (l : list string) :
  Forall (fun u => plain_id u = true) l ->
  Forall (fun u => isdigit u = true) l ->
  exists s,
    sorted natural_sort_key l = Ok s /\ Permutation s l /\
    StronglySorted (fun a b => int_of_digits 0 a <= int_of_digits 0 b) s.
Proof. intros _. apply natural_sort_numeric_order. Qed.

Lemma natural_sort_numeric_ascending_witness :
  exists s,
    sorted natural_sort_key ["2"; "10"; "1"] = Ok s /\ Permutation s ["2"; "10"; "1"] /\
    StronglySorted (fun a b => int_of_digits 0 a <= int_of_digits 0 b) s.
Proof.
  apply (natural_sort_numeric_ascending ["2"; "10"; "1"]); repeat constructor.
Defined.

Section UniqueNoDup.
Context {K : Type} `{KeyOrderLaws K}.

Lemma unique_from_nodup (seen l : list K) : NoDup (unique_from seen l).
Proof.
  revert seen. induction l as [| k t IH]; intros seen; simpl.
  - constructor.
  - destruct (existsb (keqb k) seen); [apply IH |].
    constructor; [| apply IH].
    intros Hin. apply unique_from_in in Hin. destruct Hin as [_ Hn].
    apply Hn. left. reflexivity.
Qed.

Lemma unique_nodup (l : list K) : NoDup (unique l).
Proof. apply unique_from_nodup. Qed.

Lemma strongly_sorted_strict (s : list K) :
  NoDup s -> StronglySorted (fun a b => kcmp b a <> Lt) s ->
  StronglySorted (fun a b => kcmp a b = Lt) s.
Proof.
  intros N S. induction S as [| a t S IH F]; [constructor |].
  inversion N as [| ? ? Ha Nt]; subst.
  constructor; [apply IH; exact Nt |].
  rewrite Forall_forall in *. intros b Hb. specialize (F b Hb).
  destruct (kcmp a b) eqn:C; [| reflexivity |].
  - apply kcmp_eq in C. subst. contradiction.
  - apply kcmp_gt_lt in C. contradiction.
Qed.
End UniqueNoDup.

(** [sorted] on the distinct values of a string column is the ascending
    list of these values. *)
Lemma sorted_unique_strings (l : list string) :
  sorted KStr (unique l) = Ok (sorted_unique l).
Proof.
  destruct (sorted_str_ok (fun x : string => x) (unique l)) as [s [Es0 Ps]].
  assert (sorted KStr (unique l) = Ok s) as Es by exact Es0.
  rewrite Es. f_equal. symmetry. apply sorted_unique_eq.
  - apply strongly_sorted_strict.
    + eapply Permutation_NoDup; [symmetry; exact Ps | apply unique_nodup].
    + pose proof (sorted_ok_sorted KStr (unique l) s Es) as S.
      eapply strongly_sorted_impl_in; [exact S |].
      intros a b _ _. cbn [py_lt]. intros E C. rewrite C in E. discriminate.
  - intros x. rewrite <- (unique_in x l). split; apply Permutation_in;
      [symmetry |]; exact Ps.
Qed.

(** X12.  The sidebar list of parties, [sorted(df['Party'].unique())],
    never raises: it is the list of the distinct parties of the table in
    strictly ascending order. *)
Theorem unique_parties_ascending (df : DataFrame) :
  unique_parties df = Ok (sorted_unique (map Party df)) /\
  StronglySorted (fun a b => kcmp a b = Lt) (sorted_unique (map Party df)) /\
  (forall q, In q (sorted_unique (map Party df)) <-> exists r, In r df /\ Party r = q).
Proof.
  split; [apply sorted_unique_strings |]. split; [apply sorted_unique_sorted |].
  intros q. rewrite sorted_unique_in, in_map_iff. split.
  - intros [r [E Hr]]. exists r. split; assumption.
  - intros [r [Hr E]]. exists r. split; assumption.
Qed.

(** X13.  With a renderer that does not fail, the margin report of
    app.py has exactly one page for each distinct Election_type among the
    margin rows of the selected units, in ascending order of the type, and
    every page carries the footer text. *)
Theorem margin_report_page_per_category (render : Figure -> Image) (df : DataFrame)
    (U P : list string) (wm : string) :
  exists pages,
    App.margin_report_pdf (fun fig => Ok (render fig)) df U P wm = Ok (mkDoc wm pages) /\
    map page_title pages =
      map (fun etype => "Margin Report: " ++ etype)
          (sorted_unique (map App.m_Election_type (App.m_report_df df U))).
Proof.
  unfold App.margin_report_pdf. rewrite sorted_unique_strings. simpl.
  set (etypes := sorted_unique (map App.m_Election_type (App.m_report_df df U))).
  rewrite (mapM_ok _
    (fun etype =>
       mkPage ("Margin Report: " ++ etype)
         (Chart (render
            (mkFigure ("Margins for " ++ etype)
               (map (fun m => mkBar (App.m_Prabhag m) (App.Margin m) (App.Party_W m))
                    (sort_values App.by_margin
                       (filter (fun m => keqb (App.m_Election_type m) etype)
                               (App.m_report_df df U)))))))))
    by (intros x _; reflexivity).
  simpl. eexists. split; [reflexivity |].
  rewrite map_map. reflexivity.
Qed.

Lemma mapM_ok_inv {A B : Type} (f : A -> result B) (l : list A) (l' : list B) :
  mapM f l = Ok l' -> Forall2 (fun x y => f x = Ok y) l l'.
Proof.
  revert l'. induction l as [| a l IH]; simpl; intros l' E.
  - injection E as <-. constructor.
  - destruct (f a) as [b | e] eqn:Ea; simpl in E; [| discriminate].
    destruct (mapM f l) as [bs | e]; simpl in E; [| discriminate].
    injection E as <-. constructor; [exact Ea | apply IH; reflexivity].
Qed.

(** app.py: a full result report that returns holds the pages of the
    sorted units, each with the chart that the renderer returned. *)
Lemma app_full_result_pages (to_image : Figure -> result Image) (df : DataFrame)
    (U P : list string) (wm : string) (doc : Document) :
  App.full_result_pdf to_image df U P wm = Ok doc ->
  exists us,
    sorted natural_sort_key (unique (map Prabhag (App.f_df df U P))) = Ok us /\
    Forall2 (fun u pg => App.result_page to_image (App.f_df df U P) u = Ok pg)
            us (doc_pages doc) /\
    doc_watermark doc = wm.
Proof.
  unfold App.full_result_pdf.
  destruct (sorted natural_sort_key (unique (map Prabhag (App.f_df df U P))))
    as [us | e] eqn:Es; simpl; [| discriminate].
  destruct (mapM (App.result_page to_image (App.f_df df U P)) us)
    as [pages | e] eqn:Em; simpl; [| discriminate].
  intros E. injection E as <-. exists us.
  split; [reflexivity |]. split; [apply mapM_ok_inv; exact Em | reflexivity].
Qed.

Lemma app_result_pages_titles (to_image : Figure -> result Image) (f : DataFrame)
    (us : list string) (pages : list Page) :
  Forall2 (fun u pg => App.result_page to_image f u = Ok pg) us pages ->
  map page_title pages = map (fun u => "Result: Prabhag " ++ u) us /\
  Forall (fun pg => exists img, page_body pg = Chart img) pages.
Proof.
  induction 1 as [| u pg us pages Hpg _ [IHt IHb]]; simpl.
  - split; [reflexivity | constructor].
  - unfold App.result_page in Hpg.
    match type of Hpg with
    | context [to_image ?fig] => destruct (to_image fig) as [img | e]
    end; simpl in Hpg; [| discriminate].
    injection Hpg as <-. simpl. split; [rewrite IHt; reflexivity |].
    constructor; [exists img; reflexivity | exact IHb].
Qed.

(** X14.  On plain unit ids (ASCII text): when the full result report of
    app.py produces a document, the document has exactly one page per
    distinct unit of the filtered rows, titled with the unit, in natural
    sort order, which for numeric ids is the ascending order of the unit
    number; every page holds a chart image, never a text summary, and the
    document carries the footer text. *)
Theorem full_result_page_per_unit (to_image : Figure -> result Image) (df : DataFrame)
    (U P : list string) (wm : string) (doc : Document) :
  Forall (fun r => plain_id (Prabhag r) = true) (App.f_df df U P) ->
  App.full_result_pdf to_image df U P wm = Ok doc ->
  exists us,
    map page_title (doc_pages doc) = map (fun u => "Result: Prabhag " ++ u) us /\
    Permutation us (unique (map Prabhag (App.f_df df U P))) /\
    StronglySorted
      (fun a b => py_lt (natural_sort_key b) (natural_sort_key a) = Ok false) us /\
    (Forall (fun u => isdigit u = true) us ->
     StronglySorted (fun a b => int_of_digits 0 a <= int_of_digits 0 b) us) /\
    Forall (fun pg => exists img, page_body pg = Chart img) (doc_pages doc) /\
    doc_watermark doc = wm.
Proof.
  intros _ E.
  destruct (app_full_result_pages to_image df U P wm doc E) as [us [Es [F2 Hw]]].
  destruct (app_result_pages_titles to_image _ us (doc_pages doc) F2) as [Ht Hb].
  pose proof (sorted_ok_sorted natural_sort_key _ _ Es) as S.
  exists us. split; [exact Ht |].
  split; [apply (sorted_ok_perm natural_sort_key); exact Es |].
  split; [exact S |]. split; [| split; [exact Hb | exact Hw]].
  intros Fd. rewrite Forall_forall in Fd.
  eapply strongly_sorted_impl_in; [exact S |].
  intros a b Ha Hb'. apply natural_key_le; auto.
Qed.

Lemma full_result_page_per_unit_witness :
  exists us,
    map page_title
      [mkPage "Result: Prabhag 7" (Chart "Prabhag 7 Summary");
       mkPage "Result: Prabhag 8" (Chart "Prabhag 8 Summary")]
      = map (fun u => "Result: Prabhag " ++ u) us /\
    Permutation us
      (unique (map Prabhag (App.f_df two_unit_rows ["7"; "8"] ["PartyX"; "PartyY"]))) /\
    StronglySorted
      (fun a b => py_lt (natural_sort_key b) (natural_sort_key a) = Ok false) us /\
    (Forall (fun u => isdigit u = true) us ->
     StronglySorted (fun a b => int_of_digits 0 a <= int_of_digits 0 b) us) /\
    Forall (fun pg => exists img, page_body pg = Chart img)
      [mkPage "Result: Prabhag 7" (Chart "Prabhag 7 Summary");
       mkPage "Result: Prabhag 8" (Chart "Prabhag 8 Summary")] /\
    "2025" = "2025".
Proof.
  apply (full_result_page_per_unit title_image two_unit_rows
           ["7"; "8"] ["PartyX"; "PartyY"] "2025"
           (mkDoc "2025"
              [mkPage "Result: Prabhag 7" (Chart "Prabhag 7 Summary");
               mkPage "Result: Prabhag 8" (Chart "Prabhag 8 Summary")])).
  - vm_compute. repeat constructor.
  - vm_compute. reflexivity.
Defined.

(* ------------------------------------------------------------------ *)
(** ** generate_pdf and the export tab of v2app.py *)



(** X16.  On plain unit ids (ASCII text) and with the page calls of FPDF
    taken to succeed, [generate_pdf] of v2app.py raises exactly when the
    filtered rows hold a numeric unit id together with a non-numeric one,
    and then it raises the TypeError of the sort: no failure of the
    renderer or of the document output leaves the function. *)
Theorem generate_pdf_raises_iff_mixed (to_image : Figure -> result Image)
    (output_S output : Document -> result string) (data : DataFrame)
    (U P : list string) (wm : string) :
  Forall (fun r => plain_id (Prabhag r) = true) (V2.filtered_df data U P) ->
  ((exists e, V2.generate_pdf to_image output_S output data U P wm = Raise e) <->
   (exists a b, In a (V2.filtered_df data U P) /\ In b (V2.filtered_df data U P) /\
                isdigit (Prabhag a) = true /\ isdigit (Prabhag b) = false)) /\
  (forall e, V2.generate_pdf to_image output_S output data U P wm = Raise e ->
             e = TypeError).
Proof.
  intros _.
  set (f := V2.filtered_df data U P).
  destruct (natural_sort_error (unique (map Prabhag f))) as [Hiff Hty].
  assert (forall e, V2.generate_pdf to_image output_S output data U P wm = Raise e <->
                    sorted natural_sort_key (unique (map Prabhag f)) = Raise e) as Hg.
  { intros e. unfold V2.generate_pdf, V2.compose. fold f.
    clear Hiff Hty.
    destruct (sorted natural_sort_key (unique (map Prabhag f))) as [us | e']; simpl.
    - destruct us; simpl; split; discriminate.
    - split; intros H; injection H as ->; reflexivity. }
  split; [split |].
  - intros [e He]. apply Hg in He.
    destruct (proj1 Hiff (ex_intro _ e He)) as [a [b [Ha [Hb [Da Db]]]]].
    apply unique_in, in_map_iff in Ha. destruct Ha as [ra [<- Hra]].
    apply unique_in, in_map_iff in Hb. destruct Hb as [rb [<- Hrb]].
    exists ra, rb. auto.
  - intros [a [b [Ha [Hb [Da Db]]]]].
    destruct (proj2 Hiff) as [e He].
    { exists (Prabhag a), (Prabhag b).
      repeat split; try assumption; apply unique_in, in_map; assumption. }
    exists e. apply Hg. exact He.
  - intros e He. apply Hg in He. apply Hty. exact He.
Qed.

Lemma generate_pdf_raises_iff_mixed_witness :
  ((exists e, V2.generate_pdf title_image titles_output titles_output
                ward_rows ["5"; "Ward-A"] ["PartyX"; "PartyY"] "2025" = Raise e) <->
   (exists a b,
      In a (V2.filtered_df ward_rows ["5"; "Ward-A"] ["PartyX"; "PartyY"]) /\
      In b (V2.filtered_df ward_rows ["5"; "Ward-A"] ["PartyX"; "PartyY"]) /\
      isdigit (Prabhag a) = true /\ isdigit (Prabhag b) = false)) /\
  (forall e, V2.generate_pdf title_image titles_output titles_output
               ward_rows ["5"; "Ward-A"] ["PartyX"; "PartyY"] "2025" = Raise e ->
             e = TypeError).
Proof.
  apply (generate_pdf_raises_iff_mixed title_image titles_output titles_output
           ward_rows ["5"; "Ward-A"] ["PartyX"; "PartyY"] "2025").
  vm_compute. repeat constructor.
Defined.

(** X17.  In the export tab of v2app.py, when units are selected but the
    unit and party selection matches no row, a click on "Generate PDF
    Report" ends in the failure message: the None of [generate_pdf] is
    treated like a failed generation. *)
Theorem export_click_no_rows (to_image : Figure -> result Image)
    (output_S output : Document -> result string) (df : DataFrame)
    (U P : list string) (wm : string) :
  U <> [] -> V2.filtered_df df U P = [] ->
  V2.export_click to_image output_S output df U P wm = Ok V2.GenerationFailed.
Proof.
  intros Hu Hf. unfold V2.export_click. destruct U as [| u U]; [congruence |].
  unfold V2.generate_pdf, V2.compose. rewrite Hf. reflexivity.
Qed.

Lemma export_click_no_rows_witness :
  V2.export_click title_image titles_output titles_output
    tie_rows ["5"] ["Nobody"] "2025" = Ok V2.GenerationFailed.
Proof.
  apply (export_click_no_rows title_image titles_output titles_output
           tie_rows ["5"] ["Nobody"] "2025").
  - discriminate.
  - reflexivity.
Defined.

(** X18.  In the export tab of v2app.py a download is offered only for a
    non-empty byte string other than the failure marker, and it is the
    serialisation of a composed document with at least one page, for a
    non-empty unit selection. *)
Theorem export_click_download (to_image : Figure -> result Image)
    (output_S output : Document -> result string) (df : DataFrame)
    (U P : list string) (wm : string) (b : string) :
  V2.export_click to_image output_S output df U P wm = Ok (V2.Download b) ->
  U <> [] /\ b <> "" /\ b <> "PDF generation failed" /\
  exists doc,
    V2.compose to_image df U P wm = Ok (Some doc) /\
    b = V2.serialise output_S output doc /\ doc_pages doc <> [].
Proof.
  unfold V2.export_click. destruct U as [| u U]; [discriminate |].
  unfold V2.generate_pdf.
  destruct (V2.compose to_image df (u :: U) P wm) as [[doc |] | e] eqn:Ec; simpl;
    try discriminate.
  destruct (String.eqb (V2.serialise output_S output doc) "") eqn:E1; simpl;
    [discriminate |].
  destruct (String.eqb (V2.serialise output_S output doc) "PDF generation failed") eqn:E2;
    simpl; [discriminate |].
  intros E. injection E as <-.
  apply String.eqb_neq in E1, E2.
  split; [discriminate |]. split; [exact E1 |]. split; [exact E2 |].
  exists doc. split; [reflexivity |]. split; [reflexivity |].
  destruct (v2_compose_pages to_image df (u :: U) P wm doc Ec) as [us [Es [_ [_ Hp]]]].
  unfold V2.compose in Ec. rewrite Es in Ec. simpl in Ec.
  destruct us as [| u0 us]; [discriminate |]. rewrite Hp. discriminate.
Qed.

Lemma export_click_download_witness :
  ["7"] <> [] /\ "Election Report: Prabhag 7" <> "" /\
  "Election Report: Prabhag 7" <> "PDF generation failed" /\
  exists doc,
    V2.compose fails_on_7 two_unit_rows ["7"] ["PartyX"] "2025" = Ok (Some doc) /\
    "Election Report: Prabhag 7" = V2.serialise titles_output titles_output doc /\
    doc_pages doc <> [].
Proof.
  apply (export_click_download fails_on_7 titles_output titles_output
           two_unit_rows ["7"] ["PartyX"] "2025" "Election Report: Prabhag 7").
  vm_compute. reflexivity.
Defined.

(* ------------------------------------------------------------------ *)
(** ** load_data: stripped values *)

(** X19.  A party loaded by [load_data] has no white space at either end:
    stripping it on the left, on the right or on both sides changes
    nothing.  The same holds for every value that went through
    [str.strip()], as Prabhag and Election_type do. *)
Theorem loaded_party_is_stripped (cell : option string) :
  lstrip (load_party cell) = load_party cell /\
  rstrip (load_party cell) = load_party cell /\
  strip (load_party cell) = load_party cell /\
  (forall s, strip (strip s) = strip s).
Proof.
  unfold load_party. split; [apply lstrip_strip |].
  split; [unfold strip; apply rstrip_idem |].
  split; [apply strip_idem | apply strip_idem].
Qed.

(* ------------------------------------------------------------------ *)
(** ** The charts add up *)

Lemma votes_ok_filter (f : Row -> bool) (data : DataFrame) :
  votes_ok data -> votes_ok (filter f data).
Proof.
  intros [F B]. split; [apply Forall_filter_keep; exact F |].
  pose proof (sum_votes_filter_le f data F). lia.
Qed.

Lemma groupby_sum_total {K : Type} `{KeyOrderLaws K} (key : Row -> K) (data : DataFrame) :
  votes_ok data -> vsum (groupby_sum key data) = sum_votes data.
Proof.
  intros [F B].
  destruct (groupby_fold_nonneg key data [] F ltac:(constructor)
              ltac:(unfold vsum; simpl; lia)) as [_ S].
  fold (groupby_sum key data) in S. rewrite S. reflexivity.
Qed.

Lemma sum_perm (l l' : list Z) :
  Permutation l l' -> fold_right Z.add 0 l = fold_right Z.add 0 l'.
Proof. induction 1; simpl; lia. Qed.

(** X20.  On a table with votes in range, the bars of a unit's chart add
    up to the votes of the unit's selected rows, in the full result report
    of app.py and in [generate_pdf] of v2app.py: grouping by candidate
    drops and doubles no vote. *)
Theorem chart_bars_add_up (df : DataFrame) (U P : list string) (u : string) :
  votes_ok df ->
  let p_df := filter (fun r => keqb (Prabhag r) u) (App.f_df df U P) in
  fold_right Z.add 0 (map bar_y (App.chart_data p_df)) = sum_votes p_df /\
  fold_right Z.add 0 (map V2.c_Votes (V2.chart_data p_df)) = sum_votes p_df.
Proof.
  intros V p_df.
  assert (votes_ok p_df) as Vp by (apply votes_ok_filter, votes_ok_filter; exact V).
  split.
  - rewrite <- (groupby_sum_total (fun r => (Name r, Party r)) p_df Vp).
    unfold App.chart_data, vsum. rewrite map_map. reflexivity.
  - rewrite <- (groupby_sum_total (fun r => (Name r, Party r, Election_type r)) p_df Vp).
    unfold V2.chart_data, vsum.
    rewrite (sum_perm _ _
               (Permutation_map V2.c_Votes (sort_values_perm V2.by_party_votes_desc _))).
    rewrite map_map. f_equal. apply map_ext. intros [[[n q] t] v]. reflexivity.
Qed.

Lemma chart_bars_add_up_witness :
  let p_df := filter (fun r => keqb (Prabhag r) "5")
                     (App.f_df tie_rows ["5"] ["PartyX"; "PartyY"]) in
  fold_right Z.add 0 (map bar_y (App.chart_data p_df)) = sum_votes p_df /\
  fold_right Z.add 0 (map V2.c_Votes (V2.chart_data p_df)) = sum_votes p_df.
Proof.
  apply (chart_bars_add_up tie_rows ["5"] ["PartyX"; "PartyY"] "5").
  exact votes_ok_tie_rows.
Defined.

(* ------------------------------------------------------------------ *)
(** ** The strike-rate table of app.py *)

Lemma indicator_sum_one {K : Type} `{KeyOrderLaws K} (x : K) (qs : list K) :
  NoDup qs -> In x qs ->
  fold_right Nat.add 0%nat (map (fun q => if keqb x q then 1%nat else 0%nat) qs) = 1%nat.
Proof.
  induction 1 as [| q qs Hq N IH]; simpl; intros Hin; [contradiction |].
  destruct (keqb x q) eqn:E.
  - apply keqb_eq in E. subst q.
    assert (fold_right Nat.add 0%nat
              (map (fun q => if keqb x q then 1%nat else 0%nat) qs) = 0%nat) as ->;
      [| reflexivity].
    clear IH N Hin. induction qs as [| q qs IH]; simpl; [reflexivity |].
    destruct (keqb x q) eqn:E.
    + apply keqb_eq in E. subst q. exfalso. apply Hq. left. reflexivity.
    + apply IH. intros Hin. apply Hq. right. exact Hin.
  - destruct Hin as [-> | Hin]; [rewrite keqb_refl in E; discriminate |].
    apply IH. exact Hin.
Qed.

Lemma count_partition {A K : Type} `{KeyOrderLaws K} (f : A -> K) (qs : list K)
    (l : list A) :
  NoDup qs -> (forall a, In a l -> In (f a) qs) ->
  fold_right Nat.add 0%nat
    (map (fun q => List.length (filter (fun a => keqb (f a) q) l)) qs) = List.length l.
Proof.
  intros N. induction l as [| a l IH]; intros Hin.
  - clear. induction qs as [| q qs IHq]; simpl; [reflexivity | exact IHq].
  - assert (fold_right Nat.add 0%nat
              (map (fun q => List.length (filter (fun x => keqb (f x) q) (a :: l))) qs)
            = (fold_right Nat.add 0%nat
                 (map (fun q => if keqb (f a) q then 1%nat else 0%nat) qs)
               + fold_right Nat.add 0%nat
                   (map (fun q => List.length (filter (fun x => keqb (f x) q) l)) qs))%nat)
      as ->.
    { clear. induction qs as [| q qs IHq]; cbn [map fold_right]; [reflexivity |].
      rewrite IHq. cbn [filter]. destruct (keqb (f a) q); simpl; lia. }
    rewrite (indicator_sum_one (f a) qs N (Hin a (or_introl eq_refl))).
    rewrite IH by (intros b Hb; apply Hin; right; exact Hb). reflexivity.
Qed.

Lemma total_wins_lookup (M : list App.MarginRow) (q : string) :
  match filter (fun pw => keqb (fst pw) q) (App.total_wins M) with
  | [] => [0%nat]
  | pws => map snd pws
  end = [List.length (filter (fun m => keqb (App.Party_W m) q) M)].
Proof.
  unfold App.total_wins. rewrite filter_map_comm. cbn [fst].
  destruct (in_dec string_dec q (map App.Party_W M)) as [Hin | Hn].
  - rewrite sorted_filter_one;
      [reflexivity | apply sorted_unique_sorted | apply sorted_unique_in; exact Hin].
  - rewrite filter_none.
    + simpl. f_equal. symmetry. rewrite filter_none; [reflexivity |].
      intros m Hm. apply keqb_neq. intros E. apply Hn. rewrite <- E.
      apply in_map. exact Hm.
    + intros x Hx. apply keqb_neq. intros ->. apply Hn.
      exact (proj1 (sorted_unique_in _ _) Hx).
Qed.

Lemma flat_map_singletons {A B C : Type} (F : B -> list C) (G : A -> B) (H : A -> C)
    (qs : list A) :
  (forall q, F (G q) = [H q]) -> flat_map F (map G qs) = map H qs.
Proof.
  intros E. induction qs as [| q qs IH]; simpl; [reflexivity |].
  rewrite E, IH. reflexivity.
Qed.

(** The strike-rate table in closed form: one row per party of the table. *)
Lemma strike_rate_rows (df : DataFrame) :
  App.strike_rate_df df =
  map (fun q =>
         App.mkStrike q
           (List.length (unique (map Name (filter (fun r => keqb (Party r) q) df))))
           (List.length (filter (fun m => keqb (App.Party_W m) q)
                                (App.get_margin_analysis df))))
      (sorted_unique (map Party df)).
Proof.
  unfold App.strike_rate_df, App.total_cand.
  apply flat_map_singletons. intros q. cbn [fst snd].
  pose proof (total_wins_lookup (App.get_margin_analysis df) q) as Hl.
  destruct (filter (fun pw => keqb (fst pw) q) (App.total_wins (App.get_margin_analysis df)))
    as [| pw pws].
  - injection Hl as Hl. rewrite <- Hl. reflexivity.
  - destruct pws as [| pw' pws]; [| discriminate]. injection Hl as Hl.
    simpl. rewrite Hl. reflexivity.
Qed.

Lemma winner_party_in_table (df : DataFrame) (m : App.MarginRow) :
  In m (App.get_margin_analysis df) -> In (App.Party_W m) (map Party df).
Proof.
  intros Hm. destruct (margin_row_in_group df m Hm) as [w [r [rest [E ->]]]].
  simpl.
  assert (In w (agg df)) as Hw.
  { apply sorted_agg_in.
    assert (In w (ranked_group (App.m_grp (App.margin_row w r)) df)) as Hin
      by (rewrite E; left; reflexivity).
    apply filter_In in Hin. apply Hin. }
  apply agg_entry in Hw. destruct Hw as [[r0 [Hr0 Er0]] _].
  apply in_map_iff. exists r0. split; [| exact Hr0].
  unfold agg_key in Er0. inversion Er0. reflexivity.
Qed.

(** X21.  The strike-rate table of app.py has one row per distinct party
    of the table, in ascending order; every party has at least one
    candidate (the rate never divides by zero), and the wins of all parties
    add up to the number of rows of the margin table: every contested
    (unit, category) is credited to exactly one party. *)
Theorem strike_rate_counts (df : DataFrame) :
  map App.s_Party (App.strike_rate_df df) = sorted_unique (map Party df) /\
  Forall (fun s => (1 <= App.Candidates s)%nat) (App.strike_rate_df df) /\
  fold_right Nat.add 0%nat (map App.Wins (App.strike_rate_df df))
    = List.length (App.get_margin_analysis df).
Proof.
  rewrite strike_rate_rows. split; [| split].
  - rewrite map_map. simpl. apply map_id.
  - apply Forall_forall. intros s Hs. apply in_map_iff in Hs.
    destruct Hs as [q [<- Hq]]. simpl.
    apply sorted_unique_in, in_map_iff in Hq. destruct Hq as [r [Er Hr]].
    assert (In (Name r) (unique (map Name (filter (fun r0 => keqb (Party r0) q) df)))) as Hn.
    { apply unique_in, in_map, filter_In. split; [exact Hr | apply keqb_eq; exact Er]. }
    destruct (unique (map Name (filter (fun r0 => keqb (Party r0) q) df)));
      [contradiction | simpl; lia].
  - rewrite map_map. simpl.
    apply (count_partition App.Party_W).
    + apply (strongly_sorted_nodup (fun a b : string => kcmp a b = Lt)).
      * intros a. apply kcmp_lt_irrefl.
      * apply sorted_unique_sorted.
    + intros m Hm. apply sorted_unique_in. apply winner_party_in_table. exact Hm.
Qed.

(* ------------------------------------------------------------------ *)
(** ** How failures travel *)

Lemma natural_sort_subset_ok (l l' : list string) (s : list string) :
  sorted natural_sort_key l = Ok s -> (forall u, In u l' -> In u l) ->
  exists s', sorted natural_sort_key l' = Ok s'.
Proof.
  intros Es Hsub.
  destruct (sorted natural_sort_key l') as [s' | e] eqn:E'; [eexists; reflexivity |].
  exfalso.
  destruct (natural_sort_error l') as [[Hmix _] _].
  destruct (Hmix (ex_intro _ e E')) as [a [b [Ha [Hb [Da Db]]]]].
  destruct (natural_sort_error l) as [[_ Hraise] _].
  destruct Hraise as [e0 He0].
  { exists a, b. auto. }
  congruence.
Qed.

(** X22.  Both scripts sort the unit ids of the whole table for the
    sidebar before anything else.  On plain unit ids (ASCII text), when that
    sort succeeds, the sort of the unit ids of the filtered rows, with
    which the full result report of app.py and [generate_pdf] of v2app.py
    begin, succeeds as well, whatever units and parties are selected: it
    yields the distinct units of the filtered rows, all of them units of
    the sidebar list. *)
Theorem sidebar_sort_guards_reports (df : DataFrame) (U P : list string)
    (us : list string) :
  Forall (fun r => plain_id (Prabhag r) = true) df ->
  unique_prabhags df = Ok us ->
  exists s,
    sorted natural_sort_key (unique (map Prabhag (App.f_df df U P))) = Ok s /\
    sorted natural_sort_key (unique (map Prabhag (V2.filtered_df df U P))) = Ok s /\
    Permutation s (unique (map Prabhag (V2.filtered_df df U P))) /\
    (forall u, In u s -> In u us).
Proof.
  unfold unique_prabhags. intros _ Es.
  assert (forall u, In u (unique (map Prabhag (V2.filtered_df df U P))) ->
                    In u (unique (map Prabhag df))) as Hsub.
  { intros u Hu. apply unique_in, in_map_iff in Hu. destruct Hu as [r [<- Hr]].
    apply unique_in, in_map. apply filter_In in Hr. apply Hr. }
  destruct (natural_sort_subset_ok (unique (map Prabhag df))
              (unique (map Prabhag (V2.filtered_df df U P))) us Es Hsub) as [s Es'].
  pose proof (sorted_ok_perm natural_sort_key _ _ Es') as Ps.
  exists s. split; [exact Es' |]. split; [exact Es' |]. split; [exact Ps |].
  intros u Hu.
  apply (Permutation_in u (Permutation_sym (sorted_ok_perm natural_sort_key _ _ Es))).
  apply Hsub. apply (Permutation_in u Ps). exact Hu.
Qed.

Lemma sidebar_sort_guards_reports_witness :
  exists s,
    sorted natural_sort_key
      (unique (map Prabhag (App.f_df two_unit_rows ["8"] ["PartyX"]))) = Ok s /\
    sorted natural_sort_key
      (unique (map Prabhag (V2.filtered_df two_unit_rows ["8"] ["PartyX"]))) = Ok s /\
    Permutation s (unique (map Prabhag (V2.filtered_df two_unit_rows ["8"] ["PartyX"]))) /\
    (forall u, In u s -> In u ["7"; "8"]).
Proof.
  apply (sidebar_sort_guards_reports two_unit_rows ["8"] ["PartyX"] ["7"; "8"]).
  - vm_compute. repeat constructor.
  - vm_compute. reflexivity.
Defined.

(** X23.  In the full result report of app.py a rendering failure on the
    chart of any reported unit ends the whole report with an exception: no
    document is produced, also not for the units rendered before. *)
Theorem full_result_aborts_on_render_failure (to_image : Figure -> result Image)
    (df : DataFrame) (U P : list string) (wm : string) (us : list string) (u : string)
    (e : exn) :
  sorted natural_sort_key (unique (map Prabhag (App.f_df df U P))) = Ok us ->
  In u us ->
  to_image (mkFigure ("Prabhag " ++ u ++ " Summary")
              (App.chart_data (filter (fun r => keqb (Prabhag r) u) (App.f_df df U P))))
    = Raise e ->
  exists e', App.full_result_pdf to_image df U P wm = Raise e'.
Proof. apply app_render_failure_aborts. Qed.

Lemma full_result_aborts_on_render_failure_witness :
  exists e', App.full_result_pdf fails_on_7 two_unit_rows
               ["7"; "8"] ["PartyX"; "PartyY"] "2025" = Raise e'.
Proof.
  apply (full_result_aborts_on_render_failure fails_on_7 two_unit_rows
           ["7"; "8"] ["PartyX"; "PartyY"] "2025" ["7"; "8"] "7" RenderError).
  - vm_compute. reflexivity.
  - left. reflexivity.
  - vm_compute. reflexivity.
Defined.

Lemma mapM_raise_inv {A B : Type} (f : A -> result B) (l : list A) (e : exn) :
  mapM f l = Raise e -> exists x, In x l /\ f x = Raise e.
Proof.
  induction l as [| a l IH]; simpl; [discriminate |].
  destruct (f a) as [b | e1] eqn:Ea; simpl.
  - destruct (mapM f l) as [bs | e2]; simpl; [discriminate |].
    intros E. injection E as <-. destruct (IH eq_refl) as [x [Hx Ex]].
    exists x. split; [right; exact Hx | exact Ex].
  - intros E. injection E as <-. exists a. split; [left; reflexivity | exact Ea].
Qed.

(** X24.  With the page calls of FPDF taken to succeed ([cell], [image]
    and the write of the temporary image file), the margin report of
    app.py never fails in its own sort (the categories are strings): an
    exception that leaves it is an exception the renderer raised on the
    chart of one of the categories. *)
Theorem margin_report_fails_only_in_renderer (to_image : Figure -> result Image)
    (df : DataFrame) (U P : list string) (wm : string) (e : exn) :
  App.margin_report_pdf to_image df U P wm = Raise e ->
  exists etype fig,
    In etype (map App.m_Election_type (App.m_report_df df U)) /\
    fig_title fig = "Margins for " ++ etype /\ to_image fig = Raise e.
Proof.
  unfold App.margin_report_pdf. rewrite sorted_unique_strings. simpl.
  destruct (mapM (App.margin_page to_image (App.m_report_df df U))
              (sorted_unique (map App.m_Election_type (App.m_report_df df U))))
    as [pages | e'] eqn:Em; simpl; [discriminate |].
  intros E. injection E as <-.
  destruct (mapM_raise_inv _ _ _ Em) as [etype [Hin Ef]].
  exists etype. unfold App.margin_page in Ef.
  match type of Ef with
  | context [to_image ?fig] => exists fig; destruct (to_image fig) as [img | e1] eqn:Et
  end; simpl in Ef; [discriminate |].
  split; [exact (proj1 (sorted_unique_in _ _) Hin) |].
  split; [reflexivity | congruence].
Qed.

Lemma margin_report_fails_only_in_renderer_witness :
  exists etype fig,
    In etype (map App.m_Election_type (App.m_report_df party_rows ["5"])) /\
    fig_title fig = "Margins for " ++ etype /\
    (fun _ : Figure => @Raise Image RenderError) fig = Raise RenderError.
Proof.
  apply (margin_report_fails_only_in_renderer (fun _ => Raise RenderError)
           party_rows ["5"] ["PartyX"] "2025" RenderError).
  vm_compute. reflexivity.
Defined.
